(** * Video controller (controllers/video.controller.js) of Youtube-Backend

    A shallow embedding of the six video handlers.  The document database
    (collections [videos], [users], [likes], [subscriptions]) and the asset
    store (Cloudinary) are explicit state; each handler is a function in a
    small state-and-exception monad: a thrown [ApiError] (or a JavaScript
    [TypeError], which [asyncHandler] turns into a 500) aborts the handler
    and keeps every effect performed before it. *)

From Stdlib Require Import Ascii Sorted.
From stdpp Require Import base gmap strings list fin_maps.

Open Scope string_scope.

(** ** Identifiers *)

(** An ObjectId, as its canonical 24-digit lowercase hexadecimal string. *)
Abbreviation oid := string (only parsing).

Definition is_hex_digit (c : ascii) : bool :=
  let n := nat_of_ascii c in
  (((48 <=? n) && (n <=? 57)) || ((97 <=? n) && (n <=? 102))
  || ((65 <=? n) && (n <=? 70)))%nat.

Fixpoint string_forallb (f : ascii -> bool) (s : string) : bool :=
  match s with
  | EmptyString => true
  | String c s' => f c && string_forallb f s'
  end.

(** [isValidObjectId] on a string route parameter (mongoose 8 / bson 6:
    [new ObjectId(s)] succeeds exactly on 24 hexadecimal digits). *)
Definition isValidObjectId (s : string) : bool :=
  (String.length s =? 24)%nat && string_forallb is_hex_digit s.

Definition lower_ascii (c : ascii) : ascii :=
  let n := nat_of_ascii c in
  if ((65 <=? n) && (n <=? 90))%nat then ascii_of_nat (n + 32)%nat else c.

Fixpoint string_map (f : ascii -> ascii) (s : string) : string :=
  match s with
  | EmptyString => EmptyString
  | String c s' => String (f c) (string_map f s')
  end.

(** [new mongoose.Types.ObjectId(s)] and mongoose's casting of a string
    to an ObjectId; [ObjectId.toString()] gives back the lowercase hex. *)
Definition ObjectId (s : string) : oid := string_map lower_ascii s.

(** JavaScript's loose [a != b] between [x?.owner.toString()] (a string or
    [undefined]) and [req.user?._id] (an ObjectId, compared through its
    string form, or [undefined]). *)
Definition js_loose_neq (a b : option oid) : bool :=
  match a, b with
  | None, None => false
  | Some x, Some y => negb (String.eqb x y)
  | _, _ => true
  end.

(** ** Data model *)

(** [{ url, public_id }] sub-objects; a key that was never set or was
    written as [undefined] is absent ([None]). *)
Record Media := mkMedia { url : option string; public_id : option string }.

Record Video := mkVideo {
  v_id : oid;
  title : option string;
  description : option string;
  duration : nat;
  videoFile : Media;
  thumbnail : Media;
  owner : oid;
  views : nat;
  isPublished : bool;
  createdAt : nat
}.

Record User := mkUser {
  username : string;
  avatar : Media;
  watchHistory : list oid
}.

Record Like := mkLike { like_video : oid; likedBy : oid }.

Record Subscription := mkSubscription { channel : oid; subscriber : oid }.

(** Observable effects on the two external collaborators, in order. *)
Inductive Event :=
  | EUpload (localPath : string)
  | EAssetDelete (pid : option string)
  | EVideoWrite (vid : oid)
  | EVideoDelete (vid : oid)
  | EUserWrite (uid : oid).

(** What [uploadOnCloudinary] returns on success. *)
Record Upload := mkUpload {
  up_url : string; up_public_id : string; up_duration : nat
}.

(** The behaviour of the collaborators: the upload result for each local
    path ([None] is the [null] returned on failure), whether the database
    accepts writes, the clock used for [createdAt], and the Atlas search
    index ["search-videos"] (a [$search] stage on title and description,
    which filters and orders its input by relevance). *)
Record Env := mkEnv {
  cloudinary : string -> option Upload;
  atlas_search : string -> list Video -> list Video;
  db_up : bool;
  now : nat
}.

Record St := mkSt {
  videos : list Video;             (** the [videos] collection, natural order *)
  users : gmap oid User;           (** the [users] collection *)
  likes : list Like;
  subscriptions : list Subscription;
  assets : list string;            (** public ids held by the asset store *)
  log : list Event;
  next_id : nat                    (** source of fresh [_id]s *)
}.

(** ** Errors and the handler monad *)

(** The taxonomy of the spec, attached to each [throw new ApiError(...)]. *)
Inductive Kind := InvalidArgument | Forbidden | NotFound | UpstreamFailure | Internal.

Inductive Failure :=
  | ApiError (k : Kind) (status : nat) (message : string)
  | TypeError.

Inductive Result (A : Type) := Ok (a : A) | Err (e : Failure).
Arguments Ok {A} a.
Arguments Err {A} e.

Definition M (A : Type) := Env -> St -> Result A * St.

Definition ret {A} (a : A) : M A := fun _ s => (Ok a, s).
Definition throw {A} (e : Failure) : M A := fun _ s => (Err e, s).
Definition bind {A B} (m : M A) (f : A -> M B) : M B :=
  fun env s => match m env s with
               | (Ok a, s') => f a env s'
               | (Err e, s') => (Err e, s')
               end.
Definition get : M St := fun _ s => (Ok s, s).
Definition put (s : St) : M unit := fun _ _ => (Ok tt, s).
Definition ask : M Env := fun env s => (Ok env, s).

Global Instance M_ret : MRet M := @ret.
Global Instance M_bind : MBind M := fun A B f m => bind m f.

(** [if (cond) throw e] *)
Definition throw_if (b : bool) (e : Failure) : M unit :=
  if b then throw e else ret tt.

(** Dereferencing a property of [null]/[undefined]. *)
Definition deref {A} (o : option A) : M A :=
  match o with Some a => ret a | None => throw TypeError end.

Definition emit (e : Event) : M unit :=
  fun _ s => (Ok tt, {| videos := videos s; users := users s; likes := likes s;
                        subscriptions := subscriptions s; assets := assets s;
                        log := log s ++ [e]; next_id := next_id s |}).

Definition set_videos (vs : list Video) (s : St) : St :=
  {| videos := vs; users := users s; likes := likes s;
     subscriptions := subscriptions s; assets := assets s;
     log := log s; next_id := next_id s |}.
Definition set_users (us : gmap oid User) (s : St) : St :=
  {| videos := videos s; users := us; likes := likes s;
     subscriptions := subscriptions s; assets := assets s;
     log := log s; next_id := next_id s |}.
Definition set_assets (a : list string) (s : St) : St :=
  {| videos := videos s; users := users s; likes := likes s;
     subscriptions := subscriptions s; assets := a;
     log := log s; next_id := next_id s |}.

(** A database write fails (the driver rejects the promise) when the
    database is down. *)
Definition db_guard : M unit :=
  env ← ask; if db_up env then ret tt else throw (ApiError Internal 500 "MongoError").

(** ** Database primitives *)

Definition Video_findById (s : St) (id : oid) : option Video :=
  find (fun v => String.eqb (v_id v) id) (videos s).

Definition User_findById (s : St) (uid : option oid) : option (oid * User) :=
  match uid with
  | Some u => match users s !! u with Some usr => Some (u, usr) | None => None end
  | None => None
  end.

Definition set_views (n : nat) (v : Video) : Video :=
  mkVideo (v_id v) (title v) (description v) (duration v) (videoFile v)
          (thumbnail v) (owner v) n (isPublished v) (createdAt v).

Definition set_isPublished (b : bool) (v : Video) : Video :=
  mkVideo (v_id v) (title v) (description v) (duration v) (videoFile v)
          (thumbnail v) (owner v) (views v) b (createdAt v).

(** [$set] of [title], [description] and the whole [thumbnail] object;
    mongoose removes the keys whose value is [undefined] from the update,
    so such a key keeps its stored value.  The [thumbnail] object is set as
    a whole (a nested key written as [undefined] is absent afterwards). *)
Definition set_title_desc_thumb (t d : option string) (th : Media) (v : Video) : Video :=
  mkVideo (v_id v)
          (match t with Some x => Some x | None => title v end)
          (match d with Some x => Some x | None => description v end)
          (duration v) (videoFile v) th (owner v) (views v) (isPublished v)
          (createdAt v).

(** [Model.findByIdAndUpdate(id, update, {new: true})]: the updated
    document, or [null] when no document has that id. *)
Definition Video_findByIdAndUpdate (id : oid) (f : Video -> Video) : M (option Video) :=
  db_guard;;
  s ← get;
  put (set_videos (map (fun v => if String.eqb (v_id v) id then f v else v) (videos s)) s);;
  emit (EVideoWrite id);;
  s' ← get;
  mret (Video_findById s' id).

(** [Model.findByIdAndDelete(id)]: the removed document, or [null]. *)
Definition Video_findByIdAndDelete (id : oid) : M (option Video) :=
  db_guard;;
  s ← get;
  let found := Video_findById s id in
  put (set_videos (List.filter (fun v => negb (String.eqb (v_id v) id)) (videos s)) s);;
  emit (EVideoDelete id);;
  mret found.

(** [user.save()] after an in-memory change of the document. *)
Definition User_save (uid : oid) (usr : User) : M unit :=
  db_guard;;
  s ← get;
  put (set_users (<[uid := usr]> (users s)) s);;
  emit (EUserWrite uid).

(** [User.updateMany({watchHistory: {$in: [id]}}, {$pull: {watchHistory: id}})] *)
Definition pull_history (id : oid) (usr : User) : User :=
  if existsb (String.eqb id) (watchHistory usr)
  then mkUser (username usr) (avatar usr)
              (List.filter (fun h => negb (String.eqb h id)) (watchHistory usr))
  else usr.

Definition User_updateMany_pull (id : oid) : M unit :=
  db_guard;;
  s ← get;
  put (set_users (pull_history id <$> users s) s).

(** ** Asset store (utils/cloudinary.js) *)

Definition uploadOnCloudinary (localPath : string) : M (option Upload) :=
  env ← ask;
  emit (EUpload localPath);;
  match cloudinary env localPath with
  | Some up => s ← get; put (set_assets (assets s ++ [up_public_id up]) s);; mret (Some up)
  | None => mret None
  end.

Definition deleteFromCloudinary (pid : option string) : M unit :=
  emit (EAssetDelete pid);;
  s ← get;
  match pid with
  | Some p => put (set_assets (List.filter (fun a => negb (String.eqb a p)) (assets s)) s)
  | None => mret tt
  end.

(** ** getVideoById: the aggregation *)

(** [$in: [x, arr]] where [x] is [req.user?._id]: [undefined] is sent as
    [null], which equals no ObjectId of the array. *)
Definition bson_in (x : option oid) (arr : list oid) : bool :=
  existsb (fun y => bool_decide (x = Some y)) arr.

Record OwnerView := mkOwnerView {
  ow_username : string;
  ow_avatar : Media;
  subscribersCount : nat;
  isSubscribed : bool
}.

Record VideoView := mkVideoView {
  vv_id : oid;
  vv_videoFile : Media;
  vv_title : option string;
  vv_description : option string;
  vv_views : nat;
  vv_createdAt : nat;
  vv_isPublished : bool;
  vv_duration : nat;
  vv_owner : option OwnerView;   (** [$first: "$owner"]: absent if no user *)
  likesCount : nat;
  isLiked : bool
}.

(** The inner pipeline of the [users] lookup, for one owner document. *)
Definition owner_stage (s : St) (caller : option oid) (uid : oid) (usr : User) : OwnerView :=
  let subscribers := List.filter (fun sb => String.eqb (channel sb) uid) (subscriptions s) in
  mkOwnerView (username usr) (avatar usr) (length subscribers)
              (if bson_in caller (map subscriber subscribers) then true else false).

Definition video_stage (s : St) (caller : option oid) (v : Video) : VideoView :=
  let lks := List.filter (fun l => String.eqb (like_video l) (v_id v)) (likes s) in
  let owners := match users s !! owner v with
                | Some usr => [owner_stage s caller (owner v) usr]
                | None => []
                end in
  mkVideoView (v_id v) (videoFile v) (title v) (description v) (views v)
              (createdAt v) (isPublished v) (duration v) (head owners)
              (length lks)
              (if bson_in caller (map likedBy lks) then true else false).

Definition video_aggregate (s : St) (caller : option oid) (id : oid) : list VideoView :=
  map (video_stage s caller) (List.filter (fun v => String.eqb (v_id v) id) (videos s)).

(** An array (even an empty one) is truthy in JavaScript. *)
Definition js_truthy_array {A} (l : list A) : bool := true.

Definition getVideoById (caller : option oid) (videoId : string)
  : M (list VideoView * list oid) :=
  throw_if (negb (isValidObjectId videoId)) (ApiError InvalidArgument 400 "Invalid Video Id");;
  s ← get;
  let video := video_aggregate s caller (ObjectId videoId) in
  throw_if (negb (js_truthy_array video)) (ApiError NotFound 404 "No video found");;
  Video_findByIdAndUpdate (ObjectId videoId) (fun v => set_views (views v + 1) v);;
  s ← get;
  '(uid, usr) ← deref (User_findById s caller);
  let usr' := mkUser (username usr) (avatar usr) (watchHistory usr ++ [ObjectId videoId]) in
  User_save uid usr';;
  mret (video, watchHistory usr').

(** Truthiness of an optional string ([undefined] and [""] are falsy). *)
Definition js_truthy (o : option string) : bool :=
  match o with Some x => negb (String.eqb x "") | None => false end.

(** ** updateVideo *)

Definition updateVideo (caller : option oid) (videoId : string)
    (title description : option string) (file_path : option string) : M Video :=
  let thumbnailLocalPath := file_path in
  throw_if (negb (isValidObjectId videoId)) (ApiError InvalidArgument 400 "Invalid video Id");;
  s ← get;
  let currentVideo := Video_findById s (ObjectId videoId) in
  throw_if (js_loose_neq (owner <$> currentVideo) caller)
           (ApiError Forbidden 400 "Only Owners can edit video");;
  throw_if (negb (js_truthy title) && negb (js_truthy description)
            && negb (js_truthy thumbnailLocalPath))
           (ApiError InvalidArgument 400 "Atleast one field should be passed to update");;
  thumb ← (match thumbnailLocalPath with
           | Some p =>
               if js_truthy thumbnailLocalPath then
                 s ← get;
                 video ← deref (Video_findById s (ObjectId videoId));
                 let oldImageUrl := url (thumbnail video) in
                 up ← uploadOnCloudinary p;
                 up ← (match up with
                       | Some u => mret u
                       | None => throw (ApiError UpstreamFailure 401 "Error while uploading thumbnail")
                       end);
                 deleteFromCloudinary (public_id (thumbnail video));;
                 mret (mkMedia (Some (up_url up)) (Some (up_public_id up)))
               else
                 let oldImageUrl : option string := None in
                 cur ← deref currentVideo;
                 mret (mkMedia oldImageUrl (public_id (thumbnail cur)))
           | None =>
               (* [oldImageUrl] was declared by [let] and never assigned *)
               let oldImageUrl : option string := None in
               cur ← deref currentVideo;
               mret (mkMedia oldImageUrl (public_id (thumbnail cur)))
           end);
  updatedVideo ← Video_findByIdAndUpdate (ObjectId videoId)
                   (set_title_desc_thumb title description thumb);
  match updatedVideo with
  | Some v => mret v
  | None => throw (ApiError Internal 500 "Failed to update video please try again")
  end.

(** ** deleteVideo *)

Definition deleteVideo (caller : option oid) (videoId : string) : M Video :=
  throw_if (negb (isValidObjectId videoId)) (ApiError InvalidArgument 400 "Invalid videoId");;
  s ← get;
  let currentVideo := Video_findById s (ObjectId videoId) in
  throw_if (js_loose_neq (owner <$> currentVideo) caller)
           (ApiError Forbidden 400 "You can't delete video as you are not owner of this video");;
  User_updateMany_pull (ObjectId videoId);;
  deletedVideo ← Video_findByIdAndDelete (ObjectId videoId);
  dv ← (match deletedVideo with
        | Some v => mret v
        | None => throw (ApiError NotFound 400 "Failed to delete video please try again")
        end);
  deleteFromCloudinary (public_id (videoFile dv));;
  deleteFromCloudinary (public_id (thumbnail dv));;
  mret dv.

(** ** togglePublishStatus; the response body is [{isPublished}] *)

Definition togglePublishStatus (caller : option oid) (videoId : string) : M bool :=
  throw_if (negb (isValidObjectId videoId)) (ApiError InvalidArgument 400 "Invalid videoId");;
  s ← get;
  let currentVideo := Video_findById s (ObjectId videoId) in
  cur ← (match currentVideo with
         | Some v => mret v
         | None => throw (ApiError NotFound 401 "Video not found")
         end);
  throw_if (js_loose_neq (Some (owner cur)) caller)
           (ApiError Forbidden 400 "You can't toggle publish status as you are not owner of this video");;
  toggleVideoStatus ← Video_findByIdAndUpdate (ObjectId videoId)
                        (set_isPublished (negb (isPublished cur)));
  tv ← deref toggleVideoStatus;
  mret (isPublished tv).

(** ** publishAVideo *)

(** [String.prototype.trim] on single-byte characters: tab, line feed,
    vertical tab, form feed, carriage return, space and no-break space. *)
Definition js_space (c : ascii) : bool :=
  let n := nat_of_ascii c in
  (((9 <=? n) && (n <=? 13)) || (n =? 32) || (n =? 160))%nat.

Fixpoint trim_start (s : string) : string :=
  match s with
  | EmptyString => EmptyString
  | String c s' => if js_space c then trim_start s' else s
  end.

Fixpoint string_rev (s : string) : string :=
  match s with
  | EmptyString => EmptyString
  | String c s' => string_rev s' ++ String c EmptyString
  end.

Definition trim (s : string) : string :=
  string_rev (trim_start (string_rev (trim_start s))).

(** [field?.trim() === ""]: [undefined?.trim()] is [undefined]. *)
Definition blank_field (field : option string) : bool :=
  match field with
  | Some x => String.eqb (trim x) ""
  | None => false
  end.

(** [req.files] as multer fills it: one array of files per field. *)
Record Files := mkFiles {
  videoFile_files : option (list string);   (** the [.path] of each file *)
  thumbnail_files : option (list string)
}.

(** [req.files?.<field>[0].path] *)
Definition first_path (files : option Files) (field : Files -> option (list string))
  : M (option string) :=
  match files with
  | None => mret None
  | Some f => match field f with
              | Some (p :: _) => mret (Some p)
              | _ => throw TypeError
              end
  end.

Definition hex_digit (n : nat) : ascii :=
  if (n <? 10)%nat then ascii_of_nat (48 + n) else ascii_of_nat (87 + n).

Fixpoint hex_pad (k n : nat) : string :=
  match k with
  | O => EmptyString
  | S k' => hex_pad k' (n / 16) ++ String (hex_digit (n mod 16)) EmptyString
  end.

(** A fresh ObjectId for [Video.create]. *)
Definition fresh_oid (n : nat) : oid := hex_pad 24 n.

Definition Video_create (v : oid -> Video) : M Video :=
  db_guard;;
  s ← get;
  let vid := fresh_oid (next_id s) in
  put {| videos := videos s ++ [v vid]; users := users s; likes := likes s;
         subscriptions := subscriptions s; assets := assets s;
         log := log s; next_id := S (next_id s) |};;
  emit (EVideoWrite vid);;
  mret (v vid).

Definition publishAVideo (caller : option oid) (title description : option string)
    (files : option Files) : M Video :=
  throw_if (existsb blank_field [title; description])
           (ApiError InvalidArgument 400 "All fields are required");;
  videoFileLocalPath ← first_path files videoFile_files;
  thumbnailLocalPath ← first_path files thumbnail_files;
  throw_if (negb (js_truthy videoFileLocalPath))
           (ApiError InvalidArgument 400 "videoFileLocalPath is required");;
  throw_if (negb (js_truthy thumbnailLocalPath))
           (ApiError InvalidArgument 400 "thumbnailLocalPath is required");;
  vpath ← deref videoFileLocalPath;
  tpath ← deref thumbnailLocalPath;
  videoFile ← uploadOnCloudinary vpath;
  thumbnail ← uploadOnCloudinary tpath;
  vf ← (match videoFile with
        | Some u => mret u
        | None => throw (ApiError UpstreamFailure 400 "Video file not found")
        end);
  th ← (match thumbnail with
        | Some u => mret u
        | None => throw (ApiError UpstreamFailure 400 "Thumbnail not found")
        end);
  (* [owner: req.user?._id]: documents of the model always carry an owner,
     so a request without [req.user] is not followed past this point *)
  own ← deref caller;
  env ← ask;
  video ← Video_create (fun vid =>
            mkVideo vid title description (up_duration vf)
                    (mkMedia (Some (up_url vf)) (Some (up_public_id vf)))
                    (mkMedia (Some (up_url th)) (Some (up_public_id th)))
                    own 0 true (now env));
  s ← get;
  match Video_findById s (v_id video) with
  | Some createdVideo => mret createdVideo
  | None => throw (ApiError Internal 401 "Something wrong while Adding a video")
  end.

(** ** getAllVideos *)

(** The value of a sort field of a document.  Only the numeric fields
    [views], [createdAt] and [duration] are ordered; every other field
    gets [None] for all documents, so the model does not order by it
    (MongoDB would). *)
Definition sort_key (field : string) (v : Video) : option nat :=
  if String.eqb field "views" then Some (views v)
  else if String.eqb field "createdAt" then Some (createdAt v)
  else if String.eqb field "duration" then Some (duration v)
  else None.

Definition key_le (a b : option nat) : bool :=
  match a, b with
  | None, _ => true
  | Some _, None => false
  | Some x, Some y => (x <=? y)%nat
  end.

(** [$sort: { [field]: dir }]: [dir = 1] ascending, [-1] descending. *)
Definition sort_before (field : string) (asc : bool) (a b : Video) : bool :=
  if asc then key_le (sort_key field a) (sort_key field b)
  else key_le (sort_key field b) (sort_key field a).

Fixpoint insert_by {A} (le : A -> A -> bool) (x : A) (l : list A) : list A :=
  match l with
  | [] => [x]
  | y :: l' => if le x y then x :: y :: l' else y :: insert_by le x l'
  end.

Fixpoint sort_by {A} (le : A -> A -> bool) (l : list A) : list A :=
  match l with
  | [] => []
  | x :: l' => insert_by le x (sort_by le l')
  end.

Record OwnerDetails := mkOwnerDetails { od_username : string; od_avatar_url : option string }.

Record FeedDoc := mkFeedDoc { fd_video : Video; ownerDetails : OwnerDetails }.

(** The [{docs, totalDocs, limit, page, ...}] object of aggregatePaginate. *)
Record Page := mkPage { docs : list FeedDoc; totalDocs : nat; pg_limit : nat; pg_page : nat }.

(** [$lookup] of the owner (projecting [username] and [avatar.url]) then
    [$unwind], which drops the videos whose owner is missing. *)
Definition lookup_owner (s : St) (v : Video) : option FeedDoc :=
  match users s !! owner v with
  | Some usr => Some (mkFeedDoc v (mkOwnerDetails (username usr) (url (avatar usr))))
  | None => None
  end.

(** [Video.aggregatePaginate(aggregate, {page, limit})] for a positive
    [page] and [limit]: skips [(page - 1) * limit] documents and keeps
    [limit].  The plugin's replacement of a zero page or limit by its
    defaults is not modelled: [page] or [limit] 0 is outside this
    definition's range. *)
Definition aggregatePaginate (all : list FeedDoc) (page limit : nat) : Page :=
  mkPage (firstn limit (skipn ((page - 1) * limit) all)) (length all) limit page.

(** [page] and [limit] are the results of [parseInt(_, 10)] (defaults 1 and
    10); [query], [sortBy], [sortType], [userId] are the query-string fields. *)
Definition getAllVideos (page limit : nat) (query sortBy sortType userId : option string)
  : M Page :=
  env ← ask;
  s ← get;
  let p0 := videos s in
  let p1 := match query with
            | Some q => if js_truthy query then atlas_search env q p0 else p0
            | None => p0
            end in
  p2 ← (match userId with
        | Some u =>
            if js_truthy userId then
              throw_if (negb (isValidObjectId u)) (ApiError InvalidArgument 400 "Invalid User Id");;
              mret (List.filter (fun v => String.eqb (owner v) (ObjectId u)) p1)
            else mret p1
        | None => mret p1
        end);
  let p3 := List.filter (fun v => isPublished v) p2 in
  let p4 := match sortBy, sortType with
            | Some f, Some t =>
                if js_truthy sortBy && js_truthy sortType
                then sort_by (sort_before f (String.eqb t "asc")) p3
                else sort_by (sort_before "createdAt" false) p3
            | _, _ => sort_by (sort_before "createdAt" false) p3
            end in
  let p5 := omap (lookup_owner s) p4 in
  mret (aggregatePaginate p5 page limit).

(** ** A concrete store *)

Module Sample.

Definition uA : oid := "aaaaaaaaaaaaaaaaaaaaaaaa".
Definition uB : oid := "bbbbbbbbbbbbbbbbbbbbbbbb".
Definition v1 : oid := "111111111111111111111111".
Definition v2 : oid := "222222222222222222222222".
Definition v3 : oid := "333333333333333333333333".

Definition vid1 : Video :=
  mkVideo v1 (Some "T") (Some "D") 60 (mkMedia (Some "http://c/f1") (Some "f1"))
          (mkMedia (Some "http://c/t1") (Some "t1")) uA 0 true 100.
Definition vid2 : Video :=
  mkVideo v2 (Some "T2") (Some "D2") 30 (mkMedia (Some "http://c/f2") (Some "f2"))
          (mkMedia (Some "http://c/t2") (Some "t2")) uB 5 false 200.
Definition vid3 : Video :=
  mkVideo v3 (Some "T3") (Some "D3") 10 (mkMedia (Some "http://c/f3") (Some "f3"))
          (mkMedia (Some "http://c/t3") (Some "t3")) uB 2 true 300.

Definition st0 : St :=
  {| videos := [vid1; vid2; vid3];
     users := <[uA := mkUser "alice" (mkMedia (Some "http://c/a") (Some "a")) []]>
              (<[uB := mkUser "bob" (mkMedia (Some "http://c/b") (Some "b")) [v1]]> ∅);
     likes := [mkLike v1 uB];
     subscriptions := [mkSubscription uA uB];
     assets := ["f1"; "t1"; "f2"; "t2"; "f3"; "t3"];
     log := [];
     next_id := 10 |}.

Definition env0 : Env :=
  {| cloudinary := fun p => Some (mkUpload ("http://c/" ++ p) p 42);
     atlas_search := fun _ l => l;
     db_up := true;
     now := 1000 |}.

Definition env_db_down : Env :=
  {| cloudinary := cloudinary env0; atlas_search := atlas_search env0;
     db_up := false; now := now env0 |}.

End Sample.

(** * User controller (controllers/user.controller.js)

    The registration, login and logout handlers.  The [users] collection is
    a list of account documents in natural order; the methods of the user
    model (models/user.model.js, not part of these sources) are
    collaborators of the environment: the password check (bcrypt), the two
    token generators (jwt), and the document [User.create] stores for the
    object it is given (the schema's setters, defaults and password hook),
    or [None] when the schema rejects it.  The matching of
    [findOne({$or: [{username}, {email}]})] is also left to the
    environment, since how an [undefined] key of the filter is sent to the
    server depends on driver options. *)

Module UserController.

Record Account := mkAccount {
  a_id : oid;
  a_username : string;
  a_email : string;
  a_fullName : string;
  a_avatar : string;
  a_coverImage : string;
  a_password : string;
  a_refreshToken : option string
}.

(** A document read with [.select("-password -refreshToken")]. *)
Record PublicUser := mkPublicUser {
  p_id : oid;
  p_username : string;
  p_email : string;
  p_fullName : string;
  p_avatar : string;
  p_coverImage : string
}.

Definition public_view (a : Account) : PublicUser :=
  mkPublicUser (a_id a) (a_username a) (a_email a) (a_fullName a) (a_avatar a) (a_coverImage a).

(** The object literal passed to [User.create]. *)
Record NewUser := mkNewUser {
  n_fullName : option string;
  n_avatar : string;
  n_coverImage : string;
  n_email : option string;
  n_password : option string;
  n_username : string
}.

(** [req.files] as multer fills it for the [avatar] and [coverImage]
    fields: the [.path] of each file. *)
Record UFiles := mkUFiles {
  avatar_files : option (list string);
  coverImage_files : option (list string)
}.

Record UEnv := mkUEnv {
  u_cloudinary : string -> option Upload;
  u_db_up : bool;
  findOne_match : option string -> option string -> Account -> bool;
  isPasswordCorrect : Account -> option string -> option bool;  (** [None]: rejects *)
  generateAccessToken : Account -> string;
  generateRefreshToken : Account -> string;
  create_doc : oid -> NewUser -> option Account
}.

Inductive UEvent :=
  | UEUpload (localPath : string)
  | UECreate (doc : NewUser)
  | UEAccountWrite (id : oid).

Record USt := mkUSt {
  accounts : list Account;
  u_assets : list string;
  u_log : list UEvent;
  u_next_id : nat
}.

Inductive UFailure :=
  | UApiError (status : nat) (message : string)
  | UTypeError
  | URejected.   (** a rejected promise of the database or of bcrypt *)

Inductive UResult (A : Type) := UOk (a : A) | UErr (e : UFailure).
Arguments UOk {A} a.
Arguments UErr {A} e.

Definition UM (A : Type) := UEnv -> USt -> UResult A * USt.

Definition uret {A} (a : A) : UM A := fun _ s => (UOk a, s).
Definition uthrow {A} (e : UFailure) : UM A := fun _ s => (UErr e, s).
Definition ubind {A B} (m : UM A) (f : A -> UM B) : UM B :=
  fun env s => match m env s with
               | (UOk a, s') => f a env s'
               | (UErr e, s') => (UErr e, s')
               end.
Definition uget : UM USt := fun _ s => (UOk s, s).
Definition uput (s : USt) : UM unit := fun _ _ => (UOk tt, s).
Definition uask : UM UEnv := fun env s => (UOk env, s).

Global Instance UM_ret : MRet UM := @uret.
Global Instance UM_bind : MBind UM := fun A B f m => ubind m f.

Definition uthrow_if (b : bool) (e : UFailure) : UM unit :=
  if b then uthrow e else uret tt.

Definition uderef {A} (o : option A) : UM A :=
  match o with Some a => uret a | None => uthrow UTypeError end.

(** [try { m } catch (error) { throw e }]: the effects of [m] stay. *)
Definition catch_all {A} (e : UFailure) (m : UM A) : UM A :=
  fun env s => match m env s with
               | (UOk a, s') => (UOk a, s')
               | (UErr _, s') => (UErr e, s')
               end.

Definition uemit (e : UEvent) : UM unit :=
  fun _ s => (UOk tt, mkUSt (accounts s) (u_assets s) (u_log s ++ [e]) (u_next_id s)).

Definition udb_guard : UM unit :=
  env ← uask; if u_db_up env then uret tt else uthrow URejected.

(** [User.findOne({$or: [{username}, {email}]})]: the first match. *)
Definition User_findOne (env : UEnv) (s : USt) (username email : option string) : option Account :=
  find (findOne_match env username email) (accounts s).

Definition User_findById (s : USt) (id : oid) : option Account :=
  find (fun a => String.eqb (a_id a) id) (accounts s).

Definition set_refreshToken (rt : option string) (a : Account) : Account :=
  mkAccount (a_id a) (a_username a) (a_email a) (a_fullName a) (a_avatar a)
            (a_coverImage a) (a_password a) rt.

(** [user.save({validateBeforeSave: false})] after [user.refreshToken = rt]:
    an update of the modified path of the document with that [_id]. *)
Definition User_save_refreshToken (id : oid) (rt : string) : UM unit :=
  udb_guard;;
  s ← uget;
  uput (mkUSt (map (fun a => if String.eqb (a_id a) id then set_refreshToken (Some rt) a else a)
                   (accounts s))
              (u_assets s) (u_log s) (u_next_id s));;
  uemit (UEAccountWrite id).

(** [User.create(doc)]: a fresh [_id], then the document the model stores. *)
Definition User_create (doc : NewUser) : UM Account :=
  udb_guard;;
  env ← uask;
  s ← uget;
  uemit (UECreate doc);;
  match create_doc env (fresh_oid (u_next_id s)) doc with
  | Some a =>
      s ← uget;
      uput (mkUSt (accounts s ++ [a]) (u_assets s) (u_log s) (S (u_next_id s)));;
      mret a
  | None => uthrow URejected
  end.

(** utils/cloudinary.js: a falsy local path gives [null] without an
    upload; otherwise the upload result ([null] on failure). *)
Definition uploadOnCloudinary (localPath : option string) : UM (option Upload) :=
  match localPath with
  | Some p =>
      if js_truthy localPath then
        env ← uask;
        uemit (UEUpload p);;
        match u_cloudinary env p with
        | Some up =>
            s ← uget;
            uput (mkUSt (accounts s) (u_assets s ++ [up_public_id up]) (u_log s) (u_next_id s));;
            mret (Some up)
        | None => mret None
        end
      else mret None
  | None => mret None
  end.

(** [req.files?.avatar[0]?.path] *)
Definition avatar_path (files : option UFiles) : UM (option string) :=
  match files with
  | None => mret None
  | Some f => match avatar_files f with
              | None => uthrow UTypeError
              | Some [] => mret None
              | Some (p :: _) => mret (Some p)
              end
  end.

(** The [coverImageLocalPath] of the [Array.isArray] test. *)
Definition cover_path (files : option UFiles) : option string :=
  match files with
  | Some f => match coverImage_files f with
              | Some (p :: _) => Some p
              | _ => None
              end
  | None => None
  end.

(** [String.prototype.toLowerCase] on a string of code units below 256
    (Latin-1): the Unicode lowercase mapping sends [A]-[Z] and the
    uppercase letters 192-222 except the multiplication sign 215 to the
    code 32 above; every other such code unit is kept. *)
Definition js_lower_char (c : ascii) : ascii :=
  let n := nat_of_ascii c in
  if (((65 <=? n) && (n <=? 90)) || ((192 <=? n) && (n <=? 222) && negb (n =? 215)))%nat
  then ascii_of_nat (n + 32) else c.

Definition toLowerCase (s : string) : string := string_map js_lower_char s.

Definition registerUser (fullName password email username : option string)
    (files : option UFiles) : UM PublicUser :=
  uthrow_if (existsb blank_field [fullName; email; password; username])
            (UApiError 400 "All fiels are required");;
  env ← uask;
  s ← uget;
  uthrow_if (if User_findOne env s username email then true else false)
            (UApiError 409 "USer with emailor username already exists");;
  avatarLocalPath ← avatar_path files;
  let coverImageLocalPath := cover_path files in
  uthrow_if (negb (js_truthy avatarLocalPath)) (UApiError 400 "Avatar file is required ...");;
  avatar ← uploadOnCloudinary avatarLocalPath;
  coverImage ← uploadOnCloudinary coverImageLocalPath;
  av ← (match avatar with
        | Some a => mret a
        | None => uthrow (UApiError 400 "Avatar file is required!!!")
        end);
  (* [username.toLowerCase()] *)
  uname ← uderef username;
  user ← User_create (mkNewUser fullName (up_url av)
                                (match coverImage with Some c => up_url c | None => "" end)
                                email password (toLowerCase uname));
  s ← uget;
  match User_findById s (a_id user) with
  | Some createdUser => mret (public_view createdUser)
  | None => uthrow (UApiError 500 "Something went wrong while registering the user")
  end.

Definition generateAccessAndRefreshTokens (userId : oid) : UM (string * string) :=
  catch_all (UApiError 500 "something went wrong while creating refresh and access tokens")
    (env ← uask;
     s ← uget;
     user ← uderef (User_findById s userId);
     let accessToken := generateAccessToken env user in
     let refreshToken := generateRefreshToken env user in
     User_save_refreshToken (a_id user) refreshToken;;
     mret (accessToken, refreshToken)).

(** The response body [{user, accessToken, refreshToken}]; the same two
    tokens are set as cookies. *)
Definition loginUser (email username password : option string)
  : UM (option PublicUser * string * string) :=
  uthrow_if (negb (js_truthy username) && negb (js_truthy email))
            (UApiError 400 "username or email is required");;
  env ← uask;
  s ← uget;
  user ← (match User_findOne env s username email with
          | Some u => mret u
          | None => uthrow (UApiError 404 "User does not exist")
          end);
  isPasswordValid ← (match isPasswordCorrect env user password with
                     | Some b => mret b
                     | None => uthrow URejected
                     end);
  uthrow_if (negb isPasswordValid) (UApiError 401 "Invalid user credentials");;
  tokens ← generateAccessAndRefreshTokens (a_id user);
  s ← uget;
  let loggedInUser := public_view <$> User_findById s (a_id user) in
  mret (loggedInUser, fst tokens, snd tokens).





End UserController.

(** ** Further concrete stores and collaborators *)

Module MoreSamples.
Import Sample.

(** The asset store refuses the local path ["bad"]. *)
Definition env_bad_upload : Env :=
  {| cloudinary := fun p => if String.eqb p "bad" then None else cloudinary env0 p;
     atlas_search := atlas_search env0; db_up := true; now := now env0 |}.

Definition v9 : oid := "999999999999999999999999".

Import UserController.

Definition acc1 : Account :=
  mkAccount uA "alice" "alice@x.io" "Alice" "http://c/a" "" "hash:pw" None.

Definition ust0 : USt := mkUSt [acc1] ["a"] [] 20.

(** Uploads fail on ["bad"]; the filter matches a defined username or
    email; the password check compares with a stored ["hash:"] prefix and
    rejects an undefined password; [User.create] rejects a document
    without fullName, email or password. *)
Definition uenv0 : UEnv :=
  {| u_cloudinary := fun p => if String.eqb p "bad" then None
                              else Some (mkUpload ("http://c/" ++ p) p 0);
     u_db_up := true;
     findOne_match := fun u e a =>
       match u with Some x => String.eqb x (a_username a) | None => false end
       || match e with Some x => String.eqb x (a_email a) | None => false end;
     isPasswordCorrect := fun a pw =>
       match pw with Some x => Some (String.eqb ("hash:" ++ x) (a_password a)) | None => None end;
     generateAccessToken := fun a => "acc:" ++ a_id a;
     generateRefreshToken := fun a => "ref:" ++ a_id a;
     create_doc := fun id d =>
       match n_fullName d, n_email d, n_password d with
       | Some f, Some e, Some pw =>
           Some (mkAccount id (n_username d) e f (n_avatar d) (n_coverImage d) ("hash:" ++ pw) None)
       | _, _, _ => None
       end |}.

Definition uenv_db_down : UEnv :=
  {| u_cloudinary := u_cloudinary uenv0; u_db_up := false;
     findOne_match := findOne_match uenv0; isPasswordCorrect := isPasswordCorrect uenv0;
     generateAccessToken := generateAccessToken uenv0;
     generateRefreshToken := generateRefreshToken uenv0; create_doc := create_doc uenv0 |}.

Definition bob : Account :=
  mkAccount (fresh_oid 20) "bob" "bob@x.io" "Bob" "http://c/av" "" "hash:pw" None.

End MoreSamples.

(** ** Frame relations *)

(** [m] keeps the relation [R] between the store before and after, on
    every path (also when it throws). *)
Definition keeps (R : St -> St -> Prop) {A} (m : M A) : Prop :=
  forall env s, R s (snd (m env s)).

(** Unchanged collections. *)
Definition same_videos (s s' : St) : Prop := videos s' = videos s.
Definition same_users (s s' : St) : Prop := users s' = users s.
Definition same_assets (s s' : St) : Prop := assets s' = assets s.
(** Every video other than [id] is found as before. *)
Definition others_kept (id : oid) (s s' : St) : Prop :=
  forall id', id' <> id -> Video_findById s' id' = Video_findById s id'.

(** The order of the [$sort] stage of getAllVideos. *)
Definition feed_order (sortBy sortType : option string) : Video -> Video -> bool :=
  match sortBy, sortType with
  | Some f, Some t =>
      if js_truthy sortBy && js_truthy sortType
      then sort_before f (String.eqb t "asc")
      else sort_before "createdAt" false
  | _, _ => sort_before "createdAt" false
  end.

(** * Proofs *)

(** ** Evaluating handlers symbolically *)

Ltac unfold_monad :=
  unfold db_guard, deref, throw_if in *;
  unfold mbind, M_bind, mret, M_ret, bind, ret, throw, get, put, ask in *.

Lemma find_update_same (id : oid) (f : Video -> Video) (vs : list Video) :
  (forall v, v_id (f v) = v_id v) ->
  find (fun v => String.eqb (v_id v) id)
       (map (fun v => if String.eqb (v_id v) id then f v else v) vs)
  = option_map f (find (fun v => String.eqb (v_id v) id) vs).
Proof.
  intros Hf. induction vs as [|v vs IH]; simpl; [done|].
  destruct (String.eqb (v_id v) id) eqn:E; simpl.
  - rewrite Hf, E. done.
  - rewrite E. exact IH.
Qed.

Lemma js_loose_neq_some (a b : oid) :
  js_loose_neq (Some a) (Some b) = false <-> a = b.
Proof.
  simpl. rewrite negb_false_iff. apply String.eqb_eq.
Qed.

Lemma js_loose_neq_owner (o : oid) (caller : option oid) :
  caller <> Some o -> js_loose_neq (Some o) caller = true.
Proof.
  intros H. destruct caller as [c|]; simpl; [|done].
  apply negb_true_iff. apply String.eqb_neq. congruence.
Qed.

(** ** Ownership checks *)

(** C6: a caller other than the video's owner gets the ownership error
    ([Forbidden]) from updateVideo, deleteVideo and togglePublishStatus,
    and the store (videos, users, assets, effect log) is left exactly as it
    was. *)
Theorem non_owner_forbidden (env : Env) (st : St) (caller : option oid)
    (videoId : string) (v : Video) (t d f : option string) :
  isValidObjectId videoId = true ->
  Video_findById st (ObjectId videoId) = Some v ->
  caller <> Some (owner v) ->
  updateVideo caller videoId t d f env st
    = (Err (ApiError Forbidden 400 "Only Owners can edit video"), st)
  /\ deleteVideo caller videoId env st
    = (Err (ApiError Forbidden 400 "You can't delete video as you are not owner of this video"), st)
  /\ togglePublishStatus caller videoId env st
    = (Err (ApiError Forbidden 400 "You can't toggle publish status as you are not owner of this video"), st).
Proof.
  intros Hval Hfind Hne.
  pose proof (js_loose_neq_owner (owner v) caller Hne) as Hneq.
  unfold updateVideo, deleteVideo, togglePublishStatus; unfold_monad.
  rewrite Hval; cbn -[js_loose_neq Video_findById]. rewrite Hfind.
  cbn -[js_loose_neq]. rewrite Hneq. done.
Qed.


(** ** togglePublishStatus *)

Lemma set_isPublished_id (b : bool) (v : Video) : v_id (set_isPublished b v) = v_id v.
Proof. reflexivity. Qed.

(** One call by the owner on an existing video, with the database up. *)
Lemma toggle_step (env : Env) (st : St) (videoId : string) (v : Video) :
  isValidObjectId videoId = true ->
  db_up env = true ->
  Video_findById st (ObjectId videoId) = Some v ->
  exists st', togglePublishStatus (Some (owner v)) videoId env st
                = (Ok (negb (isPublished v)), st')
           /\ Video_findById st' (ObjectId videoId)
                = Some (set_isPublished (negb (isPublished v)) v).
Proof.
  intros Hval Hdb Hfind.
  unfold togglePublishStatus, Video_findByIdAndUpdate, emit; unfold_monad.
  rewrite Hval; cbn -[Video_findById js_loose_neq]. rewrite Hfind.
  cbn -[Video_findById js_loose_neq].
  assert (Hown : js_loose_neq (Some (owner v)) (Some (owner v)) = false)
    by (apply js_loose_neq_some; done).
  rewrite Hown. cbn -[Video_findById]. rewrite Hdb. cbn -[Video_findById].
  assert (Hf : forall s, Video_findById s (ObjectId videoId)
                         = find (fun w => String.eqb (v_id w) (ObjectId videoId)) (videos s))
    by done.
  rewrite Hf. cbn [videos set_videos].
  rewrite find_update_same by (intros; apply set_isPublished_id).
  rewrite <- Hf, Hfind. cbn.
  eexists. split; [reflexivity|].
  rewrite Hf. cbn [videos set_videos].
  rewrite find_update_same by (intros; apply set_isPublished_id).
  rewrite <- Hf, Hfind. done.
Qed.

(** C9: toggling twice by the owner returns the flag to its original
    value, and each call answers the new value of the flag. *)
Theorem toggle_twice (env : Env) (st : St) (videoId : string) (v : Video) :
  isValidObjectId videoId = true ->
  db_up env = true ->
  Video_findById st (ObjectId videoId) = Some v ->
  let '(r1, st1) := togglePublishStatus (Some (owner v)) videoId env st in
  let '(r2, st2) := togglePublishStatus (Some (owner v)) videoId env st1 in
  r1 = Ok (negb (isPublished v)) /\ r2 = Ok (isPublished v)
  /\ (isPublished <$> Video_findById st2 (ObjectId videoId)) = Some (isPublished v).
Proof.
  intros Hval Hdb Hfind.
  destruct (toggle_step env st videoId v Hval Hdb Hfind) as (st1 & E1 & F1).
  rewrite E1.
  destruct (toggle_step env st1 videoId _ Hval Hdb F1) as (st2 & E2 & F2).
  cbn [owner set_isPublished isPublished] in E2, F2.
  rewrite E2, F2. rewrite negb_involutive. done.
Qed.

(** ** getVideoById: view and watch-history accounting *)

(** [n] sequential calls of a handler by the same client; the result is
    [Ok tt] when every call succeeded. *)
Fixpoint repeat_call {A} (n : nat) (m : M A) : M unit :=
  match n with
  | O => mret tt
  | S n' => m;; repeat_call n' m
  end.

Lemma set_views_id (n : nat) (v : Video) : v_id (set_views n v) = v_id v.
Proof. reflexivity. Qed.

Lemma set_views_set_views (a b : nat) (v : Video) :
  set_views a (set_views b v) = set_views a v.
Proof. reflexivity. Qed.

Lemma Video_findById_eq (s : St) (id : oid) :
  Video_findById s id = find (fun w => String.eqb (v_id w) id) (videos s).
Proof. reflexivity. Qed.

(** One fetch by an existing user of an existing video. *)
Lemma getVideoById_step (env : Env) (st : St) (u : oid) (usr : User)
    (videoId : string) (v : Video) :
  isValidObjectId videoId = true ->
  db_up env = true ->
  Video_findById st (ObjectId videoId) = Some v ->
  users st !! u = Some usr ->
  exists st',
    getVideoById (Some u) videoId env st
      = (Ok (video_aggregate st (Some u) (ObjectId videoId),
             (watchHistory usr ++ [ObjectId videoId])%list), st')
    /\ Video_findById st' (ObjectId videoId) = Some (set_views (S (views v)) v)
    /\ users st' !! u
       = Some (mkUser (username usr) (avatar usr) (watchHistory usr ++ [ObjectId videoId])).
Proof.
  intros Hval Hdb Hfind Husr.
  unfold getVideoById, Video_findByIdAndUpdate, User_save, User_findById, emit.
  unfold_monad.
  rewrite Hval; cbn -[Video_findById video_aggregate]. rewrite Hdb.
  cbn -[Video_findById video_aggregate]. rewrite Husr.
  cbn -[Video_findById video_aggregate]. rewrite Hdb.
  cbn -[Video_findById video_aggregate].
  eexists. split; [reflexivity|]. split.
  - rewrite Video_findById_eq. cbn [videos set_videos].
    rewrite find_update_same by (intros; apply set_views_id).
    rewrite <- Video_findById_eq, Hfind. cbn. rewrite Nat.add_1_r. done.
  - cbn. rewrite lookup_insert_eq. done.
Qed.

(** C1: every fetch of an existing video by an existing user adds one
    view and appends the video's id once to that user's watch history;
    [n] sequential fetches add [n] views and [n] (equal) history entries. *)
Theorem getVideoById_views_history (env : Env) (n : nat) (st : St) (u : oid)
    (usr : User) (videoId : string) (v : Video) :
  isValidObjectId videoId = true ->
  db_up env = true ->
  Video_findById st (ObjectId videoId) = Some v ->
  users st !! u = Some usr ->
  let '(r, st') := repeat_call n (getVideoById (Some u) videoId) env st in
  r = Ok tt
  /\ Video_findById st' (ObjectId videoId) = Some (set_views (views v + n) v)
  /\ users st' !! u
     = Some (mkUser (username usr) (avatar usr)
                    (watchHistory usr ++ repeat (ObjectId videoId) n)).
Proof.
  intros Hval Hdb.
  revert st usr v.
  induction n as [|n IH]; intros st usr v Hfind Husr.
  - cbn. rewrite Hfind, Husr, Nat.add_0_r, app_nil_r.
    destruct v, usr; done.
  - destruct (getVideoById_step env st u usr videoId v Hval Hdb Hfind Husr)
      as (st1 & E1 & F1 & U1).
    specialize (IH st1 _ _ F1 U1).
    cbn [repeat_call]. unfold mbind, M_bind, bind. rewrite E1.
    destruct (repeat_call n (getVideoById (Some u) videoId) env st1) as [r st'].
    destruct IH as (Hr & Hv & Hu).
    cbn [views set_views username avatar watchHistory] in Hv, Hu.
    split; [done|]. split.
    + rewrite Hv, set_views_set_views. do 2 f_equal. lia.
    + rewrite Hu, <- app_assoc. done.
Qed.

(** ** getAllVideos: the default feed *)

Section InsertionSort.
Context {A : Type} (le : A -> A -> bool) (R : A -> A -> Prop).
Hypothesis le_sound : forall a b, le a b = true -> R a b.
Hypothesis le_total : forall a b, le a b = false -> R b a.
Hypothesis R_trans : forall a b c, R a b -> R b c -> R a c.

Lemma in_insert_by (x y : A) (l : list A) :
  In y (insert_by le x l) <-> y = x \/ In y l.
Proof.
  induction l as [|z l IH]; simpl; [intuition congruence|].
  destruct (le x z); simpl; [intuition congruence|]. rewrite IH. intuition congruence.
Qed.

Lemma in_sort_by (y : A) (l : list A) : In y (sort_by le l) <-> In y l.
Proof.
  induction l as [|x l IH]; simpl; [tauto|].
  rewrite in_insert_by, IH. intuition congruence.
Qed.

Lemma insert_by_sorted (x : A) (l : list A) :
  StronglySorted R l -> StronglySorted R (insert_by le x l).
Proof.
  induction l as [|y l IH]; intros Hs; simpl.
  - constructor; [constructor|constructor].
  - apply StronglySorted_inv in Hs as [Hs Hy].
    destruct (le x y) eqn:E.
    + constructor; [constructor; assumption|].
      constructor; [apply le_sound; exact E|].
      eapply Forall_impl; [exact Hy|]. intros z Hz.
      eapply R_trans; [apply le_sound; exact E|exact Hz].
    + constructor; [apply IH; exact Hs|].
      apply List.Forall_forall. intros z Hz. apply in_insert_by in Hz as [->|Hz].
      * apply le_total. exact E.
      * rewrite List.Forall_forall in Hy. apply Hy. exact Hz.
Qed.

Lemma sort_by_sorted (l : list A) : StronglySorted R (sort_by le l).
Proof.
  induction l as [|x l IH]; simpl; [constructor|].
  apply insert_by_sorted. exact IH.
Qed.
End InsertionSort.

Lemma StronglySorted_skipn {A} (R : A -> A -> Prop) (n : nat) (l : list A) :
  StronglySorted R l -> StronglySorted R (skipn n l).
Proof.
  revert l; induction n as [|n IH]; intros [|x l] Hs; simpl; try done.
  apply IH. apply StronglySorted_inv in Hs. tauto.
Qed.

Lemma Forall_firstn' {A} (P : A -> Prop) (n : nat) (l : list A) :
  Forall P l -> Forall P (firstn n l).
Proof.
  revert l; induction n as [|n IH]; intros [|x l] Hf; simpl; try constructor.
  - inversion Hf; done.
  - apply IH. inversion Hf; done.
Qed.

Lemma Forall_skipn' {A} (P : A -> Prop) (n : nat) (l : list A) :
  Forall P l -> Forall P (skipn n l).
Proof.
  revert l; induction n as [|n IH]; intros [|x l] Hf; simpl; try done.
  apply IH. inversion Hf; done.
Qed.

Lemma StronglySorted_firstn {A} (R : A -> A -> Prop) (n : nat) (l : list A) :
  StronglySorted R l -> StronglySorted R (firstn n l).
Proof.
  revert l; induction n as [|n IH]; intros [|x l] Hs; simpl; try constructor.
  - apply IH. apply StronglySorted_inv in Hs. tauto.
  - apply Forall_firstn'. apply StronglySorted_inv in Hs. tauto.
Qed.

Lemma lookup_owner_video (s : St) (v : Video) (d : FeedDoc) :
  lookup_owner s v = Some d -> fd_video d = v.
Proof.
  unfold lookup_owner. destruct (users s !! owner v); intros H; inversion H; done.
Qed.

Lemma Forall_omap_lookup_owner (s : St) (P : Video -> Prop) (l : list Video) :
  Forall P l -> Forall (fun d => P (fd_video d)) (omap (lookup_owner s) l).
Proof.
  induction l as [|x l IH]; intros Hf; simpl; [constructor|].
  inversion Hf as [|? ? Hx Hl]; subst.
  destruct (lookup_owner s x) as [d|] eqn:E; [|apply IH; exact Hl].
  constructor; [rewrite (lookup_owner_video s x d E); exact Hx|apply IH; exact Hl].
Qed.

Lemma StronglySorted_omap_lookup_owner (s : St) (R : Video -> Video -> Prop) (l : list Video) :
  StronglySorted R l ->
  StronglySorted (fun a b => R (fd_video a) (fd_video b)) (omap (lookup_owner s) l).
Proof.
  induction l as [|x l IH]; intros Hs; simpl; [constructor|].
  apply StronglySorted_inv in Hs as [Hs Hx].
  destruct (lookup_owner s x) as [d|] eqn:E; [|apply IH; exact Hs].
  constructor; [apply IH; exact Hs|].
  rewrite (lookup_owner_video s x d E).
  apply (Forall_omap_lookup_owner s (R x)). exact Hx.
Qed.

(** C2: with no search query, no owner filter and no sort parameters, the
    returned page holds only published videos, newest first. *)
Theorem getAllVideos_default_feed (env : Env) (st : St) (page limit : nat) :
  exists pg,
    getAllVideos page limit None None None None env st = (Ok pg, st)
    /\ Forall (fun d => isPublished (fd_video d) = true) (docs pg)
    /\ Sorted (fun a b => createdAt (fd_video b) <= createdAt (fd_video a)) (docs pg).
Proof.
  set (R := fun a b : Video => createdAt b <= createdAt a).
  set (all := omap (lookup_owner st)
                (sort_by (sort_before "createdAt" false)
                         (List.filter (fun v => isPublished v) (videos st)))).
  exists (aggregatePaginate all page limit). split; [reflexivity|].
  assert (Hsorted : StronglySorted (fun a b => R (fd_video a) (fd_video b)) all).
  { apply StronglySorted_omap_lookup_owner. apply sort_by_sorted.
    - intros a b H. unfold sort_before, sort_key in H. simpl in H.
      unfold R. apply Nat.leb_le. exact H.
    - intros a b H. unfold sort_before, sort_key in H. simpl in H.
      unfold R. apply Nat.leb_gt in H. lia.
    - unfold R. intros a b c H1 H2. lia. }
  assert (Hpub : Forall (fun d => isPublished (fd_video d) = true) all).
  { apply (Forall_omap_lookup_owner st (fun v => isPublished v = true)).
    apply List.Forall_forall. intros v Hv.
    apply (proj1 (in_sort_by (sort_before "createdAt" false) v _)) in Hv.
    apply filter_In in Hv. tauto. }
  unfold aggregatePaginate; simpl. split.
  - apply Forall_firstn'. apply Forall_skipn'. exact Hpub.
  - apply StronglySorted_Sorted. apply StronglySorted_firstn.
    apply StronglySorted_skipn. exact Hsorted.
Qed.

(** ** getVideoById: the caller's like and subscription flags *)

Lemma bson_in_spec (x : option oid) (arr : list oid) :
  bson_in x arr = true <-> exists y, In y arr /\ x = Some y.
Proof.
  unfold bson_in. rewrite existsb_exists. split.
  - intros (y & Hy & Hd). apply bool_decide_eq_true in Hd. eauto.
  - intros (y & Hy & ->). exists y. split; [exact Hy|]. apply bool_decide_eq_true. done.
Qed.

(** [$cond: {if: {$in: [x, arr]}, then: true, else: false}] is the test. *)
Ltac cond_in_spec :=
  match goal with
  | |- context [bson_in ?x ?a] =>
      transitivity (bson_in x a = true); [destruct (bson_in x a); done|];
      rewrite bson_in_spec
  end.

(** C8: in each video document of the aggregation whose result
    getVideoById returns, [isLiked] holds exactly when some like of that
    video was made by the caller, and the owner's [isSubscribed] exactly when
    some subscription to the owner's channel has the caller as subscriber;
    with no caller identity both flags are false. *)
Theorem getVideoById_membership_flags (st : St) (caller : option oid) (id : oid)
    (vv : VideoView) :
  In vv (video_aggregate st caller id) ->
  exists v, In v (videos st) /\ v_id v = id /\ vv_id vv = id
  /\ (isLiked vv = true <->
        exists l, In l (likes st) /\ like_video l = id /\ caller = Some (likedBy l))
  /\ (forall ow, vv_owner vv = Some ow ->
        (isSubscribed ow = true <->
           exists sb, In sb (subscriptions st) /\ channel sb = owner v
                      /\ caller = Some (subscriber sb)))
  /\ (caller = None ->
        isLiked vv = false /\ forall ow, vv_owner vv = Some ow -> isSubscribed ow = false).
Proof.
  unfold video_aggregate. intros Hin.
  apply in_map_iff in Hin as (v & <- & Hv).
  apply filter_In in Hv as [Hv Hid]. apply String.eqb_eq in Hid.
  assert (Hliked : isLiked (video_stage st caller v) = true <->
            exists l, In l (likes st) /\ like_video l = id /\ caller = Some (likedBy l)).
  { unfold video_stage; cbn [isLiked]. cond_in_spec. split.
    - intros (y & Hy & ->). apply in_map_iff in Hy as (l & <- & Hl).
      apply filter_In in Hl as [Hl Hlv]. apply String.eqb_eq in Hlv.
      exists l. rewrite <- Hid. done.
    - intros (l & Hl & Hlv & ->). exists (likedBy l). split; [|done].
      apply in_map_iff. exists l. split; [done|]. apply filter_In.
      split; [done|]. apply String.eqb_eq. congruence. }
  assert (Hsub : forall ow, vv_owner (video_stage st caller v) = Some ow ->
            (isSubscribed ow = true <->
               exists sb, In sb (subscriptions st) /\ channel sb = owner v
                          /\ caller = Some (subscriber sb))).
  { intros ow. unfold video_stage; cbn [vv_owner].
    destruct (users st !! owner v) as [usr|]; cbn [head]; [|discriminate].
    intros [= <-]. unfold owner_stage; cbn [isSubscribed]. cond_in_spec. split.
    - intros (y & Hy & ->). apply in_map_iff in Hy as (sb & <- & Hs).
      apply filter_In in Hs as [Hs Hch]. apply String.eqb_eq in Hch. eauto.
    - intros (sb & Hs & Hch & ->). exists (subscriber sb). split; [|done].
      apply in_map_iff. exists sb. split; [done|]. apply filter_In.
      split; [done|]. apply String.eqb_eq. done. }
  exists v. split; [done|]. split; [done|]. split; [done|].
  split; [exact Hliked|]. split; [exact Hsub|].
  intros ->. split.
  - apply not_true_is_false. intros E.
    apply Hliked in E as (l & _ & _ & H). discriminate.
  - intros ow Hw. apply not_true_is_false. intros E.
    apply (Hsub ow Hw) in E as (sb & _ & _ & H). discriminate.
Qed.

(** ** updateVideo: order of the asset-store and database effects *)

Lemma js_truthy_nonempty (p : string) : p <> "" -> js_truthy (Some p) = true.
Proof.
  intros H. unfold js_truthy. apply negb_true_iff. apply String.eqb_neq. exact H.
Qed.

(** C4 (as the code does it): with a new thumbnail whose upload succeeds,
    the owner's updateVideo uploads it, then deletes the previous thumbnail
    asset, and only then writes the video record.  When that write fails,
    the handler fails, the record still references the old thumbnail, and
    that asset is already gone from the asset store. *)
Theorem updateVideo_thumbnail_order (env : Env) (st : St) (videoId : string)
    (v : Video) (p : string) (up : Upload) (t d : option string) :
  isValidObjectId videoId = true ->
  Video_findById st (ObjectId videoId) = Some v ->
  p <> "" ->
  cloudinary env p = Some up ->
  let '(r, st') := updateVideo (Some (owner v)) videoId t d (Some p) env st in
  log st' = (log st ++ [EUpload p; EAssetDelete (public_id (thumbnail v))]
                    ++ (if db_up env then [EVideoWrite (ObjectId videoId)] else []))%list
  /\ (db_up env = false ->
        r = Err (ApiError Internal 500 "MongoError")
        /\ Video_findById st' (ObjectId videoId) = Some v
        /\ forall pid, public_id (thumbnail v) = Some pid -> ~ In pid (assets st')).
Proof.
  intros Hval Hfind Hp Hup.
  pose proof (js_truthy_nonempty p Hp) as Ht.
  assert (Hown : js_loose_neq (Some (owner v)) (Some (owner v)) = false)
    by (apply js_loose_neq_some; done).
  unfold updateVideo, Video_findByIdAndUpdate, uploadOnCloudinary,
         deleteFromCloudinary, emit.
  unfold_monad.
  rewrite Hval; cbn -[Video_findById js_loose_neq js_truthy]. rewrite Hfind.
  cbn -[Video_findById js_loose_neq js_truthy]. rewrite Hown, Ht.
  cbn -[Video_findById js_truthy]. rewrite andb_false_r.
  cbn -[Video_findById]. rewrite Hfind.
  cbn -[Video_findById]. rewrite Hup.
  cbn -[Video_findById].
  destruct (public_id (thumbnail v)) as [pid|] eqn:Epid;
    cbn -[Video_findById]; destruct (db_up env) eqn:Edb; cbn -[Video_findById].
  - rewrite Video_findById_eq. cbn [videos].
    rewrite find_update_same by (intros; reflexivity).
    rewrite <- Video_findById_eq, Hfind. cbn.
    rewrite <- !app_assoc. split; [done|discriminate].
  - rewrite <- !app_assoc. split; [done|]. intros _. split; [done|]. split.
    + exact Hfind.
    + intros q [= <-] Hin. apply filter_In in Hin as [_ Hn].
      rewrite String.eqb_refl in Hn. discriminate.
  - rewrite Video_findById_eq. cbn [videos].
    rewrite find_update_same by (intros; reflexivity).
    rewrite <- Video_findById_eq, Hfind. cbn.
    rewrite <- !app_assoc. split; [done|discriminate].
  - rewrite <- !app_assoc. split; [done|]. intros _. split; [done|]. split.
    + exact Hfind.
    + discriminate.
Qed.

(** ** deleteVideo and publishAVideo: what does hold *)

Lemma find_after_delete (id : oid) (vs : list Video) :
  find (fun w => String.eqb (v_id w) id)
       (List.filter (fun w => negb (String.eqb (v_id w) id)) vs) = None.
Proof.
  induction vs as [|w vs IH]; cbn; [done|].
  destruct (String.eqb (v_id w) id) eqn:E; cbn; [exact IH|].
  rewrite E. exact IH.
Qed.

Lemma Video_findById_set_users (us : gmap oid User) (s : St) (id : oid) :
  Video_findById (set_users us s) id = Video_findById s id.
Proof. reflexivity. Qed.

(** A successful delete by the owner prunes the id from every watch history
    and removes the record. *)
Lemma deleteVideo_prunes (env : Env) (st : St) (videoId : string) (v : Video) :
  isValidObjectId videoId = true ->
  db_up env = true ->
  Video_findById st (ObjectId videoId) = Some v ->
  let '(r, st') := deleteVideo (Some (owner v)) videoId env st in
  r = Ok v
  /\ Video_findById st' (ObjectId videoId) = None
  /\ forall uid usr, users st' !! uid = Some usr ->
                     ~ In (ObjectId videoId) (watchHistory usr).
Proof.
  intros Hval Hdb Hfind.
  assert (Hown : js_loose_neq (Some (owner v)) (Some (owner v)) = false)
    by (apply js_loose_neq_some; done).
  unfold deleteVideo, User_updateMany_pull, Video_findByIdAndDelete,
         deleteFromCloudinary, emit.
  unfold_monad.
  rewrite Hval; cbn -[Video_findById js_loose_neq]. rewrite Hfind.
  cbn -[Video_findById js_loose_neq]. rewrite Hown, Hdb.
  cbn -[Video_findById]. rewrite Video_findById_set_users, Hfind.
  cbn -[Video_findById].
  destruct (public_id (videoFile v)), (public_id (thumbnail v));
    cbn -[Video_findById]; (split; [done|]); split.
  all: try (rewrite Video_findById_eq; cbn [videos]; apply find_after_delete).
  all: intros uid usr Hu; cbn in Hu; rewrite lookup_fmap in Hu;
       destruct (users st !! uid) as [usr0|]; cbn in Hu; [|discriminate];
       injection Hu as <-; unfold pull_history;
       destruct (existsb (String.eqb (ObjectId videoId)) (watchHistory usr0)) eqn:E.
  all: try (cbn; intros Hin; apply filter_In in Hin as [_ Hn];
            rewrite String.eqb_refl in Hn; discriminate).
  all: intros Hin; apply not_true_iff_false in E; apply E;
       apply existsb_exists; exists (ObjectId videoId); split;
       [exact Hin|apply String.eqb_refl].
Qed.

(** A title or description that is present but blank after trimming is
    rejected before any upload or write. *)
Lemma publishAVideo_blank_rejected (env : Env) (st : St) (caller : option oid)
    (title description : option string) (files : option Files) :
  blank_field title = true \/ blank_field description = true ->
  publishAVideo caller title description files env st
    = (Err (ApiError InvalidArgument 400 "All fields are required"), st).
Proof.
  intros H. unfold publishAVideo; unfold_monad.
  assert (Hb : existsb blank_field [title; description] = true).
  { cbn. destruct H as [-> | ->]; [done|]. apply orb_true_r. }
  rewrite Hb. done.
Qed.

(** ** Concrete runs *)

Module Runs.
Import Sample.

(** C4: with the database down, updating the thumbnail of [v1] fails
    after the old thumbnail asset ["t1"] has been deleted, while the record
    still references it. *)
Lemma updateVideo_old_thumbnail_deleted_before_write :
  let '(r, s) := updateVideo (Some uA) v1 None None (Some "newthumb") env_db_down st0 in
  r = Err (ApiError Internal 500 "MongoError")
  /\ In "t1" (assets st0) /\ ~ In "t1" (assets s)
  /\ (thumbnail <$> Video_findById s v1) = Some (mkMedia (Some "http://c/t1") (Some "t1")).
Proof.
  vm_compute. split; [reflexivity|]. split; [tauto|]. split; [|reflexivity].
  intuition discriminate.
Qed.

Lemma updateVideo_thumbnail_order_witness :
  isValidObjectId v1 = true /\ Video_findById st0 (ObjectId v1) = Some vid1
  /\ cloudinary env_db_down "newthumb" = Some (mkUpload "http://c/newthumb" "newthumb" 42)
  /\ let '(r, st') := updateVideo (Some (owner vid1)) v1 None None (Some "newthumb") env_db_down st0 in
     log st' = (log st0 ++ [EUpload "newthumb"; EAssetDelete (public_id (thumbnail vid1))]
                    ++ (if db_up env_db_down then [EVideoWrite (ObjectId v1)] else []))%list
     /\ (db_up env_db_down = false ->
           r = Err (ApiError Internal 500 "MongoError")
           /\ Video_findById st' (ObjectId v1) = Some vid1
           /\ forall pid, public_id (thumbnail vid1) = Some pid -> ~ In pid (assets st')).
Proof.
  split; [reflexivity|]. split; [reflexivity|]. split; [reflexivity|].
  apply (updateVideo_thumbnail_order env_db_down st0 v1 vid1 "newthumb"
           (mkUpload "http://c/newthumb" "newthumb" 42) None None);
    [reflexivity|reflexivity|discriminate|reflexivity].
Defined.

(** C3: after the owner deletes [v1], fetching [v1] again does not fail
    with the not-found error: the aggregation returns an empty array, which
    is truthy, and the handler answers [Ok] with an empty video list,
    having appended the deleted id to the caller's watch history again. *)
Lemma getVideoById_after_delete_not_NotFound :
  let s1 := snd (deleteVideo (Some uA) v1 env0 st0) in
  Video_findById s1 v1 = None
  /\ (forall uid usr, users s1 !! uid = Some usr -> ~ In v1 (watchHistory usr))
  /\ fst (getVideoById (Some uB) v1 env0 s1) = Ok ([], [v1])
  /\ (watchHistory <$> (users (snd (getVideoById (Some uB) v1 env0 s1)) !! uB)) = Some [v1].
Proof.
  split; [vm_compute; reflexivity|]. split; [|vm_compute; split; reflexivity].
  pose proof (deleteVideo_prunes env0 st0 v1 vid1 eq_refl eq_refl eq_refl) as H.
  destruct (deleteVideo (Some (owner vid1)) v1 env0 st0) as [r s] eqn:E.
  change (owner vid1) with uA in E. rewrite E. cbn [snd].
  destruct H as (_ & _ & H). exact H.
Qed.

(** C5: a title-only update by the owner rewrites the thumbnail object
    with [url: undefined]: the stored thumbnail loses its url. *)
Lemma updateVideo_title_only_drops_thumbnail_url :
  let '(r, s) := updateVideo (Some uA) v1 (Some "New") None None env0 st0 in
  (thumbnail <$> Video_findById st0 v1) = Some (mkMedia (Some "http://c/t1") (Some "t1"))
  /\ (thumbnail <$> Video_findById s v1) = Some (mkMedia None (Some "t1"))
  /\ (description <$> Video_findById s v1) = Some (Some "D")
  /\ (title <$> Video_findById s v1) = Some (Some "New").
Proof. vm_compute. repeat split. Qed.

(** C7: with no title at all, the blank check ([undefined?.trim() === ""]
    is false) lets the request through: both files are uploaded and no
    [InvalidArgument] error is raised. *)
Lemma publishAVideo_absent_title_uploads :
  let '(r, s) := publishAVideo (Some uA) None (Some "D")
                   (Some (mkFiles (Some ["vp"]) (Some ["tp"]))) env0 st0 in
  firstn 2 (log s) = [EUpload "vp"; EUpload "tp"]
  /\ In "vp" (assets s) /\ In "tp" (assets s)
  /\ (forall k m, r <> Err (ApiError InvalidArgument k m)).
Proof.
  vm_compute. split; [reflexivity|]. split; [tauto|]. split; [tauto|].
  intros k m H. discriminate H.
Qed.

(** Witnesses. *)

Lemma getVideoById_views_history_witness :
  isValidObjectId v1 = true /\ db_up env0 = true
  /\ Video_findById st0 (ObjectId v1) = Some vid1
  /\ users st0 !! uB = Some (mkUser "bob" (mkMedia (Some "http://c/b") (Some "b")) [v1])
  /\ let '(r, st') := repeat_call 3 (getVideoById (Some uB) v1) env0 st0 in
     r = Ok tt
     /\ Video_findById st' (ObjectId v1) = Some (set_views (views vid1 + 3) vid1)
     /\ users st' !! uB
        = Some (mkUser "bob" (mkMedia (Some "http://c/b") (Some "b"))
                       ([v1] ++ repeat (ObjectId v1) 3)%list).
Proof.
  split; [reflexivity|]. split; [reflexivity|]. split; [reflexivity|].
  split; [vm_compute; reflexivity|].
  apply (getVideoById_views_history env0 3 st0 uB
           (mkUser "bob" (mkMedia (Some "http://c/b") (Some "b")) [v1]) v1 vid1);
    [reflexivity|reflexivity|reflexivity|vm_compute; reflexivity].
Defined.

Lemma non_owner_forbidden_witness :
  isValidObjectId v1 = true /\ Video_findById st0 (ObjectId v1) = Some vid1
  /\ Some uB <> Some (owner vid1)
  /\ updateVideo (Some uB) v1 (Some "x") None None env0 st0
       = (Err (ApiError Forbidden 400 "Only Owners can edit video"), st0)
  /\ deleteVideo (Some uB) v1 env0 st0
       = (Err (ApiError Forbidden 400 "You can't delete video as you are not owner of this video"), st0)
  /\ togglePublishStatus (Some uB) v1 env0 st0
       = (Err (ApiError Forbidden 400 "You can't toggle publish status as you are not owner of this video"), st0).
Proof.
  split; [reflexivity|]. split; [reflexivity|]. split; [discriminate|].
  apply (non_owner_forbidden env0 st0 (Some uB) v1 vid1 (Some "x") None None);
    [reflexivity|reflexivity|discriminate].
Defined.




Lemma toggle_twice_witness :
  isValidObjectId v1 = true /\ db_up env0 = true
  /\ Video_findById st0 (ObjectId v1) = Some vid1
  /\ let '(r1, st1) := togglePublishStatus (Some (owner vid1)) v1 env0 st0 in
     let '(r2, st2) := togglePublishStatus (Some (owner vid1)) v1 env0 st1 in
     r1 = Ok (negb (isPublished vid1)) /\ r2 = Ok (isPublished vid1)
     /\ (isPublished <$> Video_findById st2 (ObjectId v1)) = Some (isPublished vid1).
Proof.
  split; [reflexivity|]. split; [reflexivity|]. split; [reflexivity|].
  apply (toggle_twice env0 st0 v1 vid1); reflexivity.
Defined.

Lemma getVideoById_membership_flags_witness :
  In (video_stage st0 None vid1) (video_aggregate st0 None v1)
  /\ exists v, In v (videos st0) /\ v_id v = v1 /\ vv_id (video_stage st0 None vid1) = v1
  /\ (isLiked (video_stage st0 None vid1) = true <->
        exists l, In l (likes st0) /\ like_video l = v1 /\ None = Some (likedBy l))
  /\ (forall ow, vv_owner (video_stage st0 None vid1) = Some ow ->
        (isSubscribed ow = true <->
           exists sb, In sb (subscriptions st0) /\ channel sb = owner v
                      /\ None = Some (subscriber sb)))
  /\ (None = @None oid ->
        isLiked (video_stage st0 None vid1) = false
        /\ forall ow, vv_owner (video_stage st0 None vid1) = Some ow -> isSubscribed ow = false).
Proof.
  split; [vm_compute; left; reflexivity|].
  apply (getVideoById_membership_flags st0 None v1 (video_stage st0 None vid1)).
  vm_compute; left; reflexivity.
Defined.

End Runs.

(** * Further properties of the video handlers *)

(** ** What a handler leaves untouched *)

Section Keeps.
Context (R : St -> St -> Prop) `{!PreOrder R}.

Lemma keeps_ret {A} (a : A) : keeps R (mret a).
Proof. intros env s. cbn. reflexivity. Qed.

Lemma keeps_throw {A} (e : Failure) : keeps R (@throw A e).
Proof. intros env s. cbn. reflexivity. Qed.

Lemma keeps_get : keeps R get.
Proof. intros env s. cbn. reflexivity. Qed.

Lemma keeps_ask : keeps R ask.
Proof. intros env s. cbn. reflexivity. Qed.

Lemma keeps_bind {A B} (m : M A) (f : A -> M B) :
  keeps R m -> (forall a, keeps R (f a)) -> keeps R (m ≫= f).
Proof.
  intros Hm Hf env s. unfold mbind, M_bind, bind.
  specialize (Hm env s).
  destruct (m env s) as [[a|e] s'] eqn:E; cbn in *; [|exact Hm].
  etrans; [exact Hm|]. apply Hf.
Qed.

Lemma keeps_throw_if (b : bool) (e : Failure) : keeps R (throw_if b e).
Proof. destruct b; [apply keeps_throw|apply keeps_ret]. Qed.

Lemma keeps_deref {A} (o : option A) : keeps R (deref o).
Proof. destruct o; [apply keeps_ret|apply keeps_throw]. Qed.

Lemma keeps_db_guard : keeps R db_guard.
Proof.
  apply keeps_bind; [apply keeps_ask|]. intros env.
  destruct (db_up env); [apply keeps_ret|apply keeps_throw].
Qed.

Lemma keeps_weaken (R' : St -> St -> Prop) {A} (m : M A) :
  (forall s s', R' s s' -> R s s') -> keeps R' m -> keeps R m.
Proof. intros H Hm env s. apply H, Hm. Qed.
End Keeps.

Global Instance same_videos_preorder : PreOrder same_videos.
Proof. split; [intros s; done|intros a b c H1 H2; unfold same_videos in *; congruence]. Qed.
Global Instance same_users_preorder : PreOrder same_users.
Proof. split; [intros s; done|intros a b c H1 H2; unfold same_users in *; congruence]. Qed.
Global Instance same_assets_preorder : PreOrder same_assets.
Proof. split; [intros s; done|intros a b c H1 H2; unfold same_assets in *; congruence]. Qed.
Global Instance others_kept_preorder (id : oid) : PreOrder (others_kept id).
Proof.
  split; [intros s id' _; done|].
  intros a b c H1 H2 id' Hne. rewrite (H2 id' Hne). apply H1, Hne.
Qed.

Lemma same_videos_others_kept (id : oid) (s s' : St) :
  same_videos s s' -> others_kept id s s'.
Proof. intros H id' _. unfold Video_findById. rewrite H. done. Qed.

(** The primitives. *)
Lemma keeps_emit_all (e : Event) :
  keeps same_videos (emit e) /\ keeps same_users (emit e) /\ keeps same_assets (emit e).
Proof. repeat split; intros env s; done. Qed.

Lemma find_update_other (id id' : oid) (f : Video -> Video) (vs : list Video) :
  (forall v, v_id (f v) = v_id v) -> id' <> id ->
  find (fun v => String.eqb (v_id v) id')
       (map (fun v => if String.eqb (v_id v) id then f v else v) vs)
  = find (fun v => String.eqb (v_id v) id') vs.
Proof.
  intros Hf Hne. induction vs as [|v vs IH]; cbn; [done|].
  destruct (String.eqb (v_id v) id) eqn:E; cbn.
  - rewrite Hf. apply String.eqb_eq in E. subst id.
    destruct (String.eqb (v_id v) id') eqn:E'; [|exact IH].
    apply String.eqb_eq in E'. congruence.
  - destruct (String.eqb (v_id v) id'); [done|exact IH].
Qed.

Lemma find_delete_other (id id' : oid) (vs : list Video) :
  id' <> id ->
  find (fun v => String.eqb (v_id v) id')
       (List.filter (fun v => negb (String.eqb (v_id v) id)) vs)
  = find (fun v => String.eqb (v_id v) id') vs.
Proof.
  intros Hne. induction vs as [|v vs IH]; cbn; [done|].
  destruct (String.eqb (v_id v) id) eqn:E; cbn.
  - apply String.eqb_eq in E. subst id.
    destruct (String.eqb (v_id v) id') eqn:E'; [|exact IH].
    apply String.eqb_eq in E'. congruence.
  - destruct (String.eqb (v_id v) id'); [done|exact IH].
Qed.

Create HintDb keeps_db.

Lemma keeps_update_others (id : oid) (f : Video -> Video) :
  (forall v, v_id (f v) = v_id v) -> keeps (others_kept id) (Video_findByIdAndUpdate id f).
Proof.
  intros Hf env s. unfold Video_findByIdAndUpdate, emit; unfold_monad. cbn.
  destruct (db_up env); cbn; intros id' Hne; [|done].
  unfold Video_findById; cbn. apply find_update_other; assumption.
Qed.

Lemma keeps_update_users (id : oid) (f : Video -> Video) :
  keeps same_users (Video_findByIdAndUpdate id f).
Proof.
  intros env s. unfold Video_findByIdAndUpdate, emit; unfold_monad. cbn.
  destruct (db_up env); done.
Qed.

Lemma keeps_update_assets (id : oid) (f : Video -> Video) :
  keeps same_assets (Video_findByIdAndUpdate id f).
Proof.
  intros env s. unfold Video_findByIdAndUpdate, emit; unfold_monad. cbn.
  destruct (db_up env); done.
Qed.

Lemma keeps_delete_others (id : oid) : keeps (others_kept id) (Video_findByIdAndDelete id).
Proof.
  intros env s. unfold Video_findByIdAndDelete, emit; unfold_monad. cbn.
  destruct (db_up env); cbn; intros id' Hne; [|done].
  unfold Video_findById; cbn. apply find_delete_other; assumption.
Qed.

Lemma keeps_delete_users (id : oid) : keeps same_users (Video_findByIdAndDelete id).
Proof.
  intros env s. unfold Video_findByIdAndDelete, emit; unfold_monad. cbn.
  destruct (db_up env); done.
Qed.

Lemma keeps_user_save (uid : oid) (usr : User) :
  keeps same_videos (User_save uid usr) /\ keeps same_assets (User_save uid usr).
Proof.
  split; intros env s; unfold User_save, emit; unfold_monad; cbn;
    destruct (db_up env); done.
Qed.

Lemma keeps_pull (id : oid) :
  keeps same_videos (User_updateMany_pull id) /\ keeps same_assets (User_updateMany_pull id).
Proof.
  split; intros env s; unfold User_updateMany_pull; unfold_monad; cbn;
    destruct (db_up env); done.
Qed.

Lemma keeps_upload (p : string) :
  keeps same_videos (uploadOnCloudinary p) /\ keeps same_users (uploadOnCloudinary p).
Proof.
  split; intros env s; unfold uploadOnCloudinary, emit; unfold_monad; cbn;
    destruct (cloudinary env p); done.
Qed.

Lemma keeps_asset_delete (pid : option string) :
  keeps same_videos (deleteFromCloudinary pid) /\ keeps same_users (deleteFromCloudinary pid).
Proof.
  split; intros env s; unfold deleteFromCloudinary, emit; unfold_monad; cbn;
    destruct pid; done.
Qed.

Lemma keeps_create (mk : oid -> Video) :
  keeps same_users (Video_create mk) /\ keeps same_assets (Video_create mk).
Proof.
  split; intros env s; unfold Video_create, emit; unfold_monad; cbn;
    destruct (db_up env); done.
Qed.

Lemma keeps_others_of_same (id : oid) {A} (m : M A) :
  keeps same_videos m -> keeps (others_kept id) m.
Proof. intros Hm env s. apply same_videos_others_kept, Hm. Qed.

Global Hint Resolve keeps_update_users keeps_update_assets keeps_delete_users
  keeps_delete_others : keeps_db.
Global Hint Resolve keeps_update_others : keeps_db.
Global Hint Extern 1 (forall v, v_id _ = v_id v) => intros; reflexivity : keeps_db.
Global Hint Extern 1 (keeps _ _) =>
  first [ apply (keeps_emit_all _) | apply (keeps_user_save _ _) | apply (keeps_pull _)
        | apply (keeps_upload _) | apply (keeps_asset_delete _) | apply (keeps_create _) ]
  : keeps_db.
Global Hint Extern 2 (keeps (others_kept _) _) =>
  apply keeps_others_of_same;
  first [ apply (keeps_emit_all _) | apply (keeps_user_save _ _) | apply (keeps_pull _)
        | apply (keeps_upload _) | apply (keeps_asset_delete _) ]
  : keeps_db.

(** Walks a handler: binds, branches and the primitives of [keeps_db]. *)
Ltac keeps_walk :=
  repeat first
    [ solve [eauto with keeps_db]
    | progress cbv zeta
    | match goal with |- PreOrder _ => apply _ end
    | apply keeps_bind; [..|intros ?]
    | apply keeps_ret | apply keeps_throw | apply keeps_get | apply keeps_ask
    | apply keeps_throw_if | apply keeps_deref | apply keeps_db_guard
    | match goal with |- keeps _ (match ?x with _ => _ end) => destruct x end ].

(** The write handlers touch no video other than the one named by the
    request, on every path (success or any error). *)
Theorem handlers_keep_other_videos (caller : option oid) (videoId : string)
    (t d f : option string) :
  keeps (others_kept (ObjectId videoId)) (getVideoById caller videoId)
  /\ keeps (others_kept (ObjectId videoId)) (updateVideo caller videoId t d f)
  /\ keeps (others_kept (ObjectId videoId)) (deleteVideo caller videoId)
  /\ keeps (others_kept (ObjectId videoId)) (togglePublishStatus caller videoId).
Proof.
  repeat split.
  - unfold getVideoById. keeps_walk.
  - unfold updateVideo. keeps_walk.
  - unfold deleteVideo. keeps_walk.
  - unfold togglePublishStatus. keeps_walk.
Qed.

(** The handlers that never touch a watch history leave the [users]
    collection as it was, on every path. *)
Theorem handlers_keep_users (caller : option oid) (videoId : string)
    (t d f title description : option string) (files : option Files) :
  keeps same_users (updateVideo caller videoId t d f)
  /\ keeps same_users (togglePublishStatus caller videoId)
  /\ keeps same_users (publishAVideo caller title description files).
Proof.
  repeat split.
  - unfold updateVideo. keeps_walk.
  - unfold togglePublishStatus. keeps_walk.
  - unfold publishAVideo, first_path. keeps_walk.
Qed.

(** Fetching a video and toggling its publish flag never touch the asset
    store, on every path. *)
Theorem handlers_keep_assets (caller : option oid) (videoId : string) :
  keeps same_assets (getVideoById caller videoId)
  /\ keeps same_assets (togglePublishStatus caller videoId).
Proof.
  split.
  - unfold getVideoById. keeps_walk.
  - unfold togglePublishStatus. keeps_walk.
Qed.

(** ** getAllVideos *)

Lemma js_truthy_iff (x : string) : js_truthy (Some x) = true <-> x <> "".
Proof.
  unfold js_truthy. rewrite negb_true_iff. split.
  - intros H E. subst x. discriminate.
  - apply String.eqb_neq.
Qed.

Lemma feed_order_sort (sortBy sortType : option string) (p : list Video) :
  match sortBy, sortType with
  | Some f, Some t =>
      if js_truthy sortBy && js_truthy sortType
      then sort_by (sort_before f (String.eqb t "asc")) p
      else sort_by (sort_before "createdAt" false) p
  | _, _ => sort_by (sort_before "createdAt" false) p
  end = sort_by (feed_order sortBy sortType) p.
Proof.
  unfold feed_order. destruct sortBy, sortType; try done.
  destruct (js_truthy _ && js_truthy _); done.
Qed.

Lemma getAllVideos_shape (page limit : nat) (query sortBy sortType userId : option string)
    (env : Env) (s s' : St) (pg : Page) :
  getAllVideos page limit query sortBy sortType userId env s = (Ok pg, s') ->
  s' = s /\
  exists p2, Forall (fun v => forall u, userId = Some u -> u <> "" -> owner v = ObjectId u) p2
    /\ pg = aggregatePaginate
              (omap (lookup_owner s)
                    (sort_by (feed_order sortBy sortType) (List.filter (fun v => isPublished v) p2)))
              page limit.
Proof.
  unfold getAllVideos; unfold_monad; cbn -[js_truthy isValidObjectId].
  intros H.
  destruct userId as [u|]; cbn -[js_truthy isValidObjectId feed_order] in H.
  - destruct (js_truthy (Some u)) eqn:Et; cbn -[js_truthy isValidObjectId] in H.
    + destruct (isValidObjectId u); cbn -[js_truthy] in H; [|discriminate].
      rewrite feed_order_sort in H; injection H as <- <-. split; [done|].
      eexists; split; [|reflexivity].
      apply List.Forall_forall. intros v Hv w [= <-] _.
      apply filter_In in Hv as [_ Hv]. apply String.eqb_eq. exact Hv.
    + rewrite feed_order_sort in H; injection H as <- <-. split; [done|].
      eexists; split; [|reflexivity].
      apply List.Forall_forall. intros v _ w [= <-] Hw.
      apply js_truthy_iff in Hw. congruence.
  - rewrite feed_order_sort in H; injection H as <- <-. split; [done|].
    eexists; split; [|reflexivity].
    apply List.Forall_forall. intros v _ w Hw. discriminate.
Qed.




Lemma key_le_total (a b : option nat) : key_le a b = false -> key_le b a = true.
Proof.
  destruct a as [x|], b as [y|]; cbn; try done.
  intros H. apply Nat.leb_gt in H. apply Nat.leb_le. lia.
Qed.

Lemma key_le_trans (a b c : option nat) :
  key_le a b = true -> key_le b c = true -> key_le a c = true.
Proof.
  destruct a as [x|], b as [y|], c as [z|]; cbn; try done.
  rewrite !Nat.leb_le. lia.
Qed.

Lemma sort_before_sorted (f : string) (asc : bool) (l : list Video) :
  StronglySorted (fun a b => sort_before f asc a b = true) (sort_by (sort_before f asc) l).
Proof.
  apply sort_by_sorted; [done| |].
  - intros a b. unfold sort_before. destruct asc; apply key_le_total.
  - intros a b c. unfold sort_before. destruct asc; intros H1 H2; eapply key_le_trans; eauto.
Qed.

(** With [sortBy] one of the numeric fields [views], [createdAt] or
    [duration] and a [sortType] given, the page is ordered by that field,
    ascending exactly when [sortType] is ["asc"]. *)
Theorem getAllVideos_sorted (page limit : nat) (query : option string) (f t : string)
    (userId : option string) (env : Env) (s s' : St) (pg : Page) :
  f = "views" \/ f = "createdAt" \/ f = "duration" -> t <> "" ->
  getAllVideos page limit query (Some f) (Some t) userId env s = (Ok pg, s') ->
  StronglySorted (fun a b => sort_before f (String.eqb t "asc") (fd_video a) (fd_video b) = true)
                 (docs pg).
Proof.
  intros Hf Ht H. apply getAllVideos_shape in H as [_ [p2 [_ ->]]].
  assert (Hf' : f <> "") by (destruct Hf as [-> | [-> | ->]]; discriminate).
  clear Hf. rename Hf' into Hf.
  unfold feed_order. apply js_truthy_iff in Hf, Ht. rewrite Hf, Ht. cbn.
  apply StronglySorted_firstn, StronglySorted_skipn.
  apply (StronglySorted_omap_lookup_owner s (fun a b => sort_before f (String.eqb t "asc") a b = true)).
  apply sort_before_sorted.
Qed.

(** A non-empty [userId] that is not an ObjectId is rejected with 400,
    whatever the other parameters. *)
Theorem getAllVideos_invalid_userId (page limit : nat) (query sortBy sortType : option string)
    (u : string) (env : Env) (s : St) :
  u <> "" -> isValidObjectId u = false ->
  getAllVideos page limit query sortBy sortType (Some u) env s
    = (Err (ApiError InvalidArgument 400 "Invalid User Id"), s).
Proof.
  intros Hu Hv. apply js_truthy_iff in Hu.
  unfold getAllVideos; unfold_monad; cbn -[js_truthy isValidObjectId].
  rewrite Hu. cbn -[isValidObjectId]. rewrite Hv. done.
Qed.

(** ** Malformed ids *)

(** Every handler taking a video id rejects an id that is not an ObjectId
    with status 400, before reading or writing anything. *)
Theorem handlers_reject_invalid_id (env : Env) (s : St) (caller : option oid)
    (videoId : string) (t d f : option string) :
  isValidObjectId videoId = false ->
  getVideoById caller videoId env s = (Err (ApiError InvalidArgument 400 "Invalid Video Id"), s)
  /\ updateVideo caller videoId t d f env s
     = (Err (ApiError InvalidArgument 400 "Invalid video Id"), s)
  /\ deleteVideo caller videoId env s = (Err (ApiError InvalidArgument 400 "Invalid videoId"), s)
  /\ togglePublishStatus caller videoId env s
     = (Err (ApiError InvalidArgument 400 "Invalid videoId"), s).
Proof.
  intros Hv. unfold getVideoById, updateVideo, deleteVideo, togglePublishStatus; unfold_monad.
  rewrite Hv. done.
Qed.

(** ** getVideoById *)

(** A fetch whose caller is not a stored user ([req.user] absent, or its
    document gone) fails with a TypeError on [user.watchHistory], after the
    view counter of the video has already been incremented. *)
Theorem getVideoById_unknown_caller_counts_view (env : Env) (s : St) (caller : option oid)
    (videoId : string) (v : Video) :
  isValidObjectId videoId = true ->
  db_up env = true ->
  Video_findById s (ObjectId videoId) = Some v ->
  User_findById s caller = None ->
  let '(r, s') := getVideoById caller videoId env s in
  r = Err TypeError
  /\ Video_findById s' (ObjectId videoId) = Some (set_views (S (views v)) v)
  /\ users s' = users s.
Proof.
  intros Hval Hdb Hfind Hu.
  unfold getVideoById, Video_findByIdAndUpdate, emit.
  unfold_monad.
  rewrite Hval; cbn -[Video_findById video_aggregate User_findById]. rewrite Hdb.
  cbn -[Video_findById video_aggregate User_findById].
  unfold User_findById in Hu |- *. cbn -[Video_findById video_aggregate].
  destruct caller as [c|]; cbn -[Video_findById video_aggregate].
  - destruct (users s !! c); [discriminate|]. cbn. split; [done|]. split; [|done].
    rewrite find_update_same by (intros; apply set_views_id).
    rewrite <- Video_findById_eq, Hfind. cbn. rewrite Nat.add_1_r. done.
  - split; [done|]. split; [|done].
    rewrite Video_findById_eq. cbn [videos set_videos].
    rewrite find_update_same by (intros; apply set_views_id).
    rewrite <- Video_findById_eq, Hfind. cbn. rewrite Nat.add_1_r. done.
Qed.

(** ** updateVideo *)

(** The owner's update with no title, no description and no thumbnail
    (each absent or empty) is rejected with 400 and changes nothing. *)
Theorem updateVideo_no_fields (env : Env) (s : St) (videoId : string) (v : Video)
    (t d f : option string) :
  isValidObjectId videoId = true ->
  Video_findById s (ObjectId videoId) = Some v ->
  js_truthy t = false -> js_truthy d = false -> js_truthy f = false ->
  updateVideo (Some (owner v)) videoId t d f env s
    = (Err (ApiError InvalidArgument 400 "Atleast one field should be passed to update"), s).
Proof.
  intros Hval Hfind Ht Hd Hf.
  assert (Hown : js_loose_neq (Some (owner v)) (Some (owner v)) = false)
    by (apply js_loose_neq_some; done).
  unfold updateVideo; unfold_monad.
  rewrite Hval; cbn -[Video_findById js_loose_neq js_truthy]. rewrite Hfind.
  cbn -[js_loose_neq js_truthy]. rewrite Hown, Ht, Hd, Hf. done.
Qed.

(** When the new thumbnail's upload fails, the owner's update fails with
    401 and neither the video record nor the previous thumbnail asset is
    touched. *)
Theorem updateVideo_upload_failed (env : Env) (s : St) (videoId : string) (v : Video)
    (p : string) (t d : option string) :
  isValidObjectId videoId = true ->
  Video_findById s (ObjectId videoId) = Some v ->
  p <> "" ->
  cloudinary env p = None ->
  let '(r, s') := updateVideo (Some (owner v)) videoId t d (Some p) env s in
  r = Err (ApiError UpstreamFailure 401 "Error while uploading thumbnail")
  /\ videos s' = videos s /\ users s' = users s /\ assets s' = assets s
  /\ log s' = (log s ++ [EUpload p])%list.
Proof.
  intros Hval Hfind Hp Hup.
  pose proof (js_truthy_nonempty p Hp) as Ht.
  assert (Hown : js_loose_neq (Some (owner v)) (Some (owner v)) = false)
    by (apply js_loose_neq_some; done).
  unfold updateVideo, uploadOnCloudinary, emit; unfold_monad.
  rewrite Hval; cbn -[Video_findById js_loose_neq js_truthy]. rewrite Hfind.
  cbn -[Video_findById js_loose_neq js_truthy]. rewrite Hown, Ht.
  cbn -[Video_findById js_truthy]. rewrite andb_false_r.
  cbn -[Video_findById]. rewrite Hfind.
  cbn -[Video_findById]. rewrite Hup. done.
Qed.

(** A successful thumbnail change by the owner: the stored record gets the
    new title and description where given, the new thumbnail as a whole,
    and the rest unchanged; the asset store gains the new thumbnail and
    loses the previous one (every asset with its public id). *)
Theorem updateVideo_new_thumbnail (env : Env) (s : St) (videoId : string) (v : Video)
    (p : string) (up : Upload) (t d : option string) :
  isValidObjectId videoId = true ->
  Video_findById s (ObjectId videoId) = Some v ->
  p <> "" ->
  cloudinary env p = Some up ->
  db_up env = true ->
  let v' := set_title_desc_thumb t d (mkMedia (Some (up_url up)) (Some (up_public_id up))) v in
  let '(r, s') := updateVideo (Some (owner v)) videoId t d (Some p) env s in
  r = Ok v'
  /\ Video_findById s' (ObjectId videoId) = Some v'
  /\ assets s' = match public_id (thumbnail v) with
                 | Some q => List.filter (fun a => negb (String.eqb a q))
                                         (assets s ++ [up_public_id up])%list
                 | None => (assets s ++ [up_public_id up])%list
                 end.
Proof.
  intros Hval Hfind Hp Hup Hdb.
  pose proof (js_truthy_nonempty p Hp) as Ht.
  assert (Hown : js_loose_neq (Some (owner v)) (Some (owner v)) = false)
    by (apply js_loose_neq_some; done).
  unfold updateVideo, Video_findByIdAndUpdate, uploadOnCloudinary,
         deleteFromCloudinary, emit.
  unfold_monad.
  rewrite Hval; cbn -[Video_findById js_loose_neq js_truthy]. rewrite Hfind.
  cbn -[Video_findById js_loose_neq js_truthy]. rewrite Hown, Ht.
  cbn -[Video_findById js_truthy]. rewrite andb_false_r.
  cbn -[Video_findById]. rewrite Hfind.
  cbn -[Video_findById]. rewrite Hup.
  cbn -[Video_findById].
  destruct (public_id (thumbnail v)) as [q|] eqn:Eq;
    cbn -[Video_findById]; rewrite Hdb; cbn -[Video_findById].
  all: rewrite Video_findById_eq; cbn [videos];
       rewrite find_update_same by (intros; reflexivity);
       rewrite <- Video_findById_eq, Hfind; cbn -[set_title_desc_thumb].
  all: split; [done|split; [|done]].
  all: rewrite find_update_same by (intros; reflexivity);
       rewrite <- Video_findById_eq, Hfind; done.
Qed.

(** ** deleteVideo *)

(** A successful delete by the owner removes the video file's and the
    thumbnail's assets (every asset with one of their public ids). *)
Theorem deleteVideo_removes_assets (env : Env) (s : St) (videoId : string) (v : Video) :
  isValidObjectId videoId = true ->
  db_up env = true ->
  Video_findById s (ObjectId videoId) = Some v ->
  let drop (o : option string) (l : list string) :=
    match o with
    | Some q => List.filter (fun a => negb (String.eqb a q)) l
    | None => l
    end in
  let '(r, s') := deleteVideo (Some (owner v)) videoId env s in
  r = Ok v
  /\ assets s' = drop (public_id (thumbnail v)) (drop (public_id (videoFile v)) (assets s))
  /\ log s' = (log s ++ [EVideoDelete (ObjectId videoId); EAssetDelete (public_id (videoFile v));
                         EAssetDelete (public_id (thumbnail v))])%list.
Proof.
  intros Hval Hdb Hfind.
  assert (Hown : js_loose_neq (Some (owner v)) (Some (owner v)) = false)
    by (apply js_loose_neq_some; done).
  unfold deleteVideo, User_updateMany_pull, Video_findByIdAndDelete,
         deleteFromCloudinary, emit.
  unfold_monad.
  rewrite Hval; cbn -[Video_findById js_loose_neq]. rewrite Hfind.
  cbn -[Video_findById js_loose_neq]. rewrite Hown, Hdb.
  cbn -[Video_findById]. rewrite Video_findById_set_users, Hfind.
  cbn -[Video_findById].
  destruct (public_id (videoFile v)), (public_id (thumbnail v)); cbn;
    rewrite <- !app_assoc; done.
Qed.

(** ** togglePublishStatus *)

(** Toggling a well-formed id that matches no video fails with 401 "Video
    not found" and changes nothing. *)
Theorem togglePublishStatus_missing (env : Env) (s : St) (caller : option oid)
    (videoId : string) :
  isValidObjectId videoId = true ->
  Video_findById s (ObjectId videoId) = None ->
  togglePublishStatus caller videoId env s = (Err (ApiError NotFound 401 "Video not found"), s).
Proof.
  intros Hval Hnone. unfold togglePublishStatus; unfold_monad.
  rewrite Hval; cbn -[Video_findById]. rewrite Hnone. done.
Qed.

(** ** publishAVideo *)

Lemma find_app_last {A} (P : A -> bool) (l : list A) (x : A) :
  find P l = None -> P x = true -> find P (l ++ [x])%list = Some x.
Proof.
  induction l as [|y l IH]; cbn; [intros _ ->; done|].
  destruct (P y); [discriminate|exact IH].
Qed.

(** A successful publication by a signed-in user who sends a title and a
    description that are not blank: the response is the new record (fresh
    id, the given title and description, the uploaded files' urls and
    public ids, the video's duration, the caller as owner, no views,
    published, created now), which is appended to the collection; both
    uploads are kept in the asset store and the users are untouched.  Both
    fields are present, so the schema's [required] validators, which
    [Video_create] does not model, have nothing to reject. *)
Theorem publishAVideo_success (env : Env) (s : St) (u : oid)
    (t d : string) (vp tp : string) (vrest trest : list string)
    (vf th : Upload) :
  trim t <> "" -> trim d <> "" ->
  vp <> "" -> tp <> "" ->
  cloudinary env vp = Some vf -> cloudinary env tp = Some th ->
  db_up env = true ->
  Video_findById s (fresh_oid (next_id s)) = None ->
  let v := mkVideo (fresh_oid (next_id s)) (Some t) (Some d) (up_duration vf)
             (mkMedia (Some (up_url vf)) (Some (up_public_id vf)))
             (mkMedia (Some (up_url th)) (Some (up_public_id th))) u 0 true (now env) in
  let '(r, s') := publishAVideo (Some u) (Some t) (Some d)
                    (Some (mkFiles (Some (vp :: vrest)) (Some (tp :: trest)))) env s in
  r = Ok v /\ videos s' = (videos s ++ [v])%list /\ users s' = users s
  /\ assets s' = (assets s ++ [up_public_id vf; up_public_id th])%list
  /\ next_id s' = S (next_id s).
Proof.
  intros Ht Hd Hvp Htp Hvf Hth Hdb Hfresh.
  assert (Ht' : blank_field (Some t) = false) by (cbn; apply String.eqb_neq; exact Ht).
  assert (Hd' : blank_field (Some d) = false) by (cbn; apply String.eqb_neq; exact Hd).
  clear Ht Hd. rename Ht' into Ht. rename Hd' into Hd.
  apply js_truthy_nonempty in Hvp, Htp.
  unfold publishAVideo, first_path, uploadOnCloudinary, Video_create, emit.
  unfold_monad.
  cbn [existsb]. rewrite Ht, Hd. cbn -[js_truthy Video_findById fresh_oid].
  rewrite Hvp, Htp. cbn -[Video_findById fresh_oid]. rewrite Hvf.
  cbn -[Video_findById fresh_oid]. rewrite Hth.
  cbn -[Video_findById fresh_oid]. rewrite Hdb.
  cbn -[Video_findById fresh_oid].
  rewrite Video_findById_eq. cbn [videos].
  rewrite find_app_last; [|exact Hfresh|apply String.eqb_refl].
  cbn. rewrite <- !app_assoc. done.
Qed.

(** When the video file's upload fails, publication fails with 400 "Video
    file not found" after both uploads were attempted: no record is
    created, and a thumbnail that was uploaded stays in the asset store. *)
Theorem publishAVideo_video_upload_failed (env : Env) (s : St) (caller : option oid)
    (title description : option string) (vp tp : string) (vrest trest : list string) :
  blank_field title = false -> blank_field description = false ->
  vp <> "" -> tp <> "" ->
  cloudinary env vp = None ->
  let '(r, s') := publishAVideo caller title description
                    (Some (mkFiles (Some (vp :: vrest)) (Some (tp :: trest)))) env s in
  r = Err (ApiError UpstreamFailure 400 "Video file not found")
  /\ videos s' = videos s /\ users s' = users s
  /\ assets s' = (assets s ++ match cloudinary env tp with
                              | Some th => [up_public_id th]
                              | None => []
                              end)%list
  /\ log s' = (log s ++ [EUpload vp; EUpload tp])%list.
Proof.
  intros Ht Hd Hvp Htp Hvf.
  apply js_truthy_nonempty in Hvp, Htp.
  unfold publishAVideo, first_path, uploadOnCloudinary, emit.
  unfold_monad.
  cbn [existsb]. rewrite Ht, Hd. cbn -[js_truthy].
  rewrite Hvp, Htp. cbn. rewrite Hvf. cbn.
  destruct (cloudinary env tp); cbn; rewrite <- !app_assoc; rewrite ?app_nil_r; done.
Qed.

(** Without [req.files] publication fails with 400 "videoFileLocalPath is
    required"; with [req.files] but no video file it fails with a
    TypeError on [req.files.videoFile[0]]; either way before any upload or
    write. *)
Theorem publishAVideo_missing_video_file (env : Env) (s : St) (caller : option oid)
    (title description : option string) (vfs ths : option (list string)) :
  blank_field title = false -> blank_field description = false ->
  publishAVideo caller title description None env s
    = (Err (ApiError InvalidArgument 400 "videoFileLocalPath is required"), s)
  /\ (vfs = None \/ vfs = Some [] ->
      publishAVideo caller title description (Some (mkFiles vfs ths)) env s = (Err TypeError, s)).
Proof.
  intros Ht Hd. unfold publishAVideo, first_path; unfold_monad.
  cbn [existsb]. rewrite Ht, Hd. cbn. split; [done|].
  intros [-> | ->]; done.
Qed.

(** * Properties of the user controller *)

Module UserProofs.
Import UserController.

Ltac unfold_umonad :=
  unfold udb_guard, uderef, uthrow_if, catch_all in *;
  unfold mbind, UM_bind, mret, UM_ret, ubind, uret, uthrow, uget, uput, uask in *.

Lemma blank_fields_false (l : list (option string)) :
  Forall (fun f => blank_field f = false) l -> existsb blank_field l = false.
Proof.
  induction 1 as [|f l Hf _ IH]; cbn; [done|]. rewrite Hf, IH. done.
Qed.

(** ** registerUser *)

(** A field present but blank after trimming is rejected with 400 before
    any lookup, upload or write. *)
Theorem registerUser_blank_rejected (env : UEnv) (s : USt)
    (fullName password email username : option string) (files : option UFiles) (x : string) :
  In (Some x) [fullName; email; password; username] -> trim x = "" ->
  registerUser fullName password email username files env s
    = (UErr (UApiError 400 "All fiels are required"), s).
Proof.
  intros Hin Hx. unfold registerUser; unfold_umonad.
  assert (Hb : existsb blank_field [fullName; email; password; username] = true).
  { apply existsb_exists. exists (Some x). split; [exact Hin|]. cbn. rewrite Hx. done. }
  rewrite Hb. done.
Qed.

(** An existing user with that username or email (as the [$or] filter
    finds it) is a conflict (409); nothing is uploaded or written. *)
Theorem registerUser_conflict (env : UEnv) (s : USt)
    (fullName password email username : option string) (files : option UFiles) (a : Account) :
  Forall (fun f => blank_field f = false) [fullName; email; password; username] ->
  User_findOne env s username email = Some a ->
  registerUser fullName password email username files env s
    = (UErr (UApiError 409 "USer with emailor username already exists"), s).
Proof.
  intros Hb Hf. apply blank_fields_false in Hb.
  unfold registerUser; unfold_umonad. rewrite Hb. cbn -[User_findOne]. rewrite Hf. done.
Qed.

(** Without an avatar the registration fails before any upload: with 400
    when [req.files] is absent or its [avatar] array is empty, and with a
    TypeError when [req.files] has no [avatar] field. *)
Theorem registerUser_missing_avatar (env : UEnv) (s : USt)
    (fullName password email username : option string) (covers : option (list string)) :
  Forall (fun f => blank_field f = false) [fullName; email; password; username] ->
  User_findOne env s username email = None ->
  registerUser fullName password email username None env s
    = (UErr (UApiError 400 "Avatar file is required ..."), s)
  /\ registerUser fullName password email username (Some (mkUFiles (Some []) covers)) env s
    = (UErr (UApiError 400 "Avatar file is required ..."), s)
  /\ registerUser fullName password email username (Some (mkUFiles None covers)) env s
    = (UErr UTypeError, s).
Proof.
  intros Hb Hf. apply blank_fields_false in Hb.
  unfold registerUser, avatar_path; unfold_umonad. rewrite Hb. cbn -[User_findOne].
  rewrite Hf. done.
Qed.

(** When the avatar's upload fails, registration fails with 400 and
    creates no account, but a cover image uploaded just before stays in
    the asset store. *)
Theorem registerUser_avatar_upload_failed (env : UEnv) (s : USt)
    (fullName password email username : option string) (p q : string) (ps qs : list string)
    (cu : Upload) :
  Forall (fun f => blank_field f = false) [fullName; email; password; username] ->
  User_findOne env s username email = None ->
  p <> "" -> q <> "" ->
  u_cloudinary env p = None ->
  u_cloudinary env q = Some cu ->
  let '(r, s') := registerUser fullName password email username
                    (Some (mkUFiles (Some (p :: ps)) (Some (q :: qs)))) env s in
  r = UErr (UApiError 400 "Avatar file is required!!!")
  /\ accounts s' = accounts s
  /\ u_assets s' = (u_assets s ++ [up_public_id cu])%list
  /\ u_log s' = (u_log s ++ [UEUpload p; UEUpload q])%list.
Proof.
  intros Hb Hf Hp Hq Hup Hcu. apply blank_fields_false in Hb.
  apply js_truthy_nonempty in Hp, Hq.
  unfold registerUser, avatar_path, cover_path, uploadOnCloudinary, uemit; unfold_umonad.
  rewrite Hb. cbn -[User_findOne js_truthy]. rewrite Hf.
  cbn -[js_truthy]. rewrite Hp. cbn -[js_truthy]. rewrite Hup.
  cbn -[js_truthy]. rewrite Hq. cbn. rewrite Hcu. cbn.
  rewrite <- !app_assoc. done.
Qed.

(** An absent [username] passes the blank check ([undefined?.trim()] is
    [undefined]); the avatar is uploaded, then [username.toLowerCase()]
    throws a TypeError: no account is created and the uploaded avatar stays
    in the asset store. *)
Theorem registerUser_absent_username (env : UEnv) (s : USt)
    (fullName password email : option string) (p : string) (ps : list string) (av : Upload) :
  Forall (fun f => blank_field f = false) [fullName; email; password] ->
  User_findOne env s None email = None ->
  p <> "" ->
  u_cloudinary env p = Some av ->
  let '(r, s') := registerUser fullName password email None
                    (Some (mkUFiles (Some (p :: ps)) None)) env s in
  r = UErr UTypeError
  /\ accounts s' = accounts s
  /\ u_assets s' = (u_assets s ++ [up_public_id av])%list
  /\ u_log s' = (u_log s ++ [UEUpload p])%list.
Proof.
  intros Hb Hf Hp Hav.
  assert (Hb' : existsb blank_field [fullName; email; password; None] = false).
  { apply Forall_cons in Hb as [Hb1 Hb]. apply Forall_cons in Hb as [Hb2 Hb].
    apply Forall_cons in Hb as [Hb3 _].
    cbn. rewrite Hb1, Hb2, Hb3. done. }
  apply js_truthy_nonempty in Hp.
  unfold registerUser, avatar_path, cover_path, uploadOnCloudinary, uemit; unfold_umonad.
  rewrite Hb'. cbn -[User_findOne js_truthy]. rewrite Hf.
  cbn -[js_truthy]. rewrite Hp. cbn -[js_truthy]. rewrite Hav. cbn. done.
Qed.

(** A registration without a cover image: only the avatar is uploaded,
    [User.create] receives the avatar's url, [coverImage: ""] and the
    username lowercased, and the response is the stored document without
    password and refresh token. *)
Theorem registerUser_success_no_cover (env : UEnv) (s : USt)
    (fn pw em un p : string) (ps : list string) (av : Upload) (a : Account) :
  Forall (fun f => blank_field f = false) [Some fn; Some em; Some pw; Some un] ->
  User_findOne env s (Some un) (Some em) = None ->
  p <> "" ->
  u_cloudinary env p = Some av ->
  u_db_up env = true ->
  let doc := mkNewUser (Some fn) (up_url av) "" (Some em) (Some pw) (toLowerCase un) in
  create_doc env (fresh_oid (u_next_id s)) doc = Some a ->
  User_findById s (a_id a) = None ->
  let '(r, s') := registerUser (Some fn) (Some pw) (Some em) (Some un)
                    (Some (mkUFiles (Some (p :: ps)) None)) env s in
  r = UOk (public_view a)
  /\ accounts s' = (accounts s ++ [a])%list
  /\ u_assets s' = (u_assets s ++ [up_public_id av])%list
  /\ u_log s' = (u_log s ++ [UEUpload p; UECreate doc])%list.
Proof.
  intros Hb Hf Hp Hav Hdb doc Hdoc Hfresh. apply blank_fields_false in Hb.
  apply js_truthy_nonempty in Hp.
  unfold registerUser, avatar_path, cover_path, uploadOnCloudinary, User_create, uemit;
    unfold_umonad.
  rewrite Hb. cbn -[User_findOne js_truthy fresh_oid User_findById]. rewrite Hf.
  cbn -[js_truthy fresh_oid User_findById]. rewrite Hp.
  cbn -[js_truthy fresh_oid User_findById]. rewrite Hav.
  cbn -[fresh_oid User_findById]. rewrite Hdb. cbn -[fresh_oid User_findById].
  fold doc. rewrite Hdoc. cbn -[User_findById].
  unfold User_findById in *. cbn [accounts].
  rewrite find_app_last; [|exact Hfresh|apply String.eqb_refl].
  rewrite <- !app_assoc. done.
Qed.

(** ** loginUser *)

(** Neither a username nor an email: 400, nothing read or written. *)
Theorem loginUser_no_identifier (env : UEnv) (s : USt) (email username password : option string) :
  js_truthy username = false -> js_truthy email = false ->
  loginUser email username password env s
    = (UErr (UApiError 400 "username or email is required"), s).
Proof.
  intros Hu He. unfold loginUser; unfold_umonad. rewrite Hu, He. done.
Qed.

(** No user matches the filter: 404, nothing written. *)
Theorem loginUser_unknown_user (env : UEnv) (s : USt) (email username password : option string) :
  js_truthy username = true \/ js_truthy email = true ->
  User_findOne env s username email = None ->
  loginUser email username password env s = (UErr (UApiError 404 "User does not exist"), s).
Proof.
  intros Hid Hf. unfold loginUser; unfold_umonad.
  assert (Hc : negb (js_truthy username) && negb (js_truthy email) = false).
  { destruct Hid as [-> | ->]; [done|apply andb_false_r]. }
  rewrite Hc. cbn -[User_findOne]. rewrite Hf. done.
Qed.

(** A wrong password: 401, and no token is generated or stored. *)
Theorem loginUser_wrong_password (env : UEnv) (s : USt) (email username password : option string)
    (a : Account) :
  js_truthy username = true \/ js_truthy email = true ->
  User_findOne env s username email = Some a ->
  isPasswordCorrect env a password = Some false ->
  loginUser email username password env s = (UErr (UApiError 401 "Invalid user credentials"), s).
Proof.
  intros Hid Hf Hpw. unfold loginUser; unfold_umonad.
  assert (Hc : negb (js_truthy username) && negb (js_truthy email) = false).
  { destruct Hid as [-> | ->]; [done|apply andb_false_r]. }
  rewrite Hc. cbn -[User_findOne]. rewrite Hf. cbn. rewrite Hpw. done.
Qed.

(** A successful login returns two tokens generated for the user's
    document, stores the refresh token in that document, and returns the
    document without password and refresh token. *)
Theorem loginUser_success (env : UEnv) (s : USt) (email username password : option string)
    (a a' : Account) :
  js_truthy username = true \/ js_truthy email = true ->
  User_findOne env s username email = Some a ->
  isPasswordCorrect env a password = Some true ->
  User_findById s (a_id a) = Some a' ->
  u_db_up env = true ->
  let '(r, s') := loginUser email username password env s in
  r = UOk (Some (public_view a'), generateAccessToken env a', generateRefreshToken env a')
  /\ User_findById s' (a_id a)
     = Some (set_refreshToken (Some (generateRefreshToken env a')) a').
Proof.
  intros Hid Hf Hpw Hid' Hdb. unfold loginUser, generateAccessAndRefreshTokens,
    User_save_refreshToken, uemit; unfold_umonad.
  assert (Hc : negb (js_truthy username) && negb (js_truthy email) = false).
  { destruct Hid as [-> | ->]; [done|apply andb_false_r]. }
  rewrite Hc. cbn -[User_findOne User_findById]. rewrite Hf.
  cbn -[User_findById]. rewrite Hpw. cbn -[User_findById]. rewrite Hid'.
  cbn -[User_findById]. rewrite Hdb. cbn -[User_findById].
  assert (Hid_eq : a_id a' = a_id a).
  { unfold User_findById in Hid'. apply find_some in Hid' as [_ E].
    apply String.eqb_eq. exact E. }
  assert (Hup : User_findById
                  (mkUSt (map (fun x => if String.eqb (a_id x) (a_id a')
                                        then set_refreshToken (Some (generateRefreshToken env a')) x
                                        else x) (accounts s))
                         (u_assets s) (u_log s ++ [UEAccountWrite (a_id a')]) (u_next_id s))
                  (a_id a)
                = Some (set_refreshToken (Some (generateRefreshToken env a')) a')).
  { unfold User_findById in *. cbn [accounts]. rewrite Hid_eq.
    clear Hid_eq. induction (accounts s) as [|x l IH]; cbn in *; [discriminate|].
    destruct (String.eqb (a_id x) (a_id a)) eqn:E; cbn.
    - rewrite E. injection Hid' as ->. done.
    - rewrite E. apply IH, Hid'. }
  rewrite Hup. done.
Qed.

(** With the database down, the refresh token cannot be saved: the token
    helper turns every failure into 500, and nothing is written. *)
Theorem loginUser_db_down (env : UEnv) (s : USt) (email username password : option string)
    (a : Account) :
  js_truthy username = true \/ js_truthy email = true ->
  User_findOne env s username email = Some a ->
  isPasswordCorrect env a password = Some true ->
  u_db_up env = false ->
  loginUser email username password env s
    = (UErr (UApiError 500 "something went wrong while creating refresh and access tokens"), s).
Proof.
  intros Hid Hf Hpw Hdb. unfold loginUser, generateAccessAndRefreshTokens,
    User_save_refreshToken; unfold_umonad.
  assert (Hc : negb (js_truthy username) && negb (js_truthy email) = false).
  { destruct Hid as [-> | ->]; [done|apply andb_false_r]. }
  rewrite Hc. cbn -[User_findOne User_findById]. rewrite Hf.
  cbn -[User_findById]. rewrite Hpw. cbn -[User_findById].
  destruct (User_findById s (a_id a)); cbn; [rewrite Hdb|]; done.
Qed.

(** ** logoutUser *)



End UserProofs.

(** * Concrete runs of the further properties *)

Module Runs2.
Import Sample MoreSamples.


Lemma getAllVideos_sorted_witness :
  ("views" = "views" \/ "views" = "createdAt" \/ "views" = "duration") /\ "asc" <> ""
  /\ getAllVideos 1 10 None (Some "views") (Some "asc") None env0 st0
     = (Ok (mkPage [mkFeedDoc vid1 (mkOwnerDetails "alice" (Some "http://c/a"));
                    mkFeedDoc vid3 (mkOwnerDetails "bob" (Some "http://c/b"))] 2 10 1), st0)
  /\ StronglySorted (fun a b => sort_before "views" (String.eqb "asc" "asc")
                                            (fd_video a) (fd_video b) = true)
       [mkFeedDoc vid1 (mkOwnerDetails "alice" (Some "http://c/a"));
        mkFeedDoc vid3 (mkOwnerDetails "bob" (Some "http://c/b"))].
Proof.
  split; [left; reflexivity|]. split; [discriminate|]. split; [vm_compute; reflexivity|].
  apply (getAllVideos_sorted 1 10 None "views" "asc" None env0 st0 st0
           (mkPage [mkFeedDoc vid1 (mkOwnerDetails "alice" (Some "http://c/a"));
                    mkFeedDoc vid3 (mkOwnerDetails "bob" (Some "http://c/b"))] 2 10 1));
    [left; reflexivity|discriminate|vm_compute; reflexivity].
Defined.

Lemma getAllVideos_invalid_userId_witness :
  "xyz" <> "" /\ isValidObjectId "xyz" = false
  /\ getAllVideos 1 10 None None None (Some "xyz") env0 st0
     = (Err (ApiError InvalidArgument 400 "Invalid User Id"), st0).
Proof.
  split; [discriminate|]. split; [reflexivity|].
  apply getAllVideos_invalid_userId; [discriminate|reflexivity].
Defined.

Lemma handlers_reject_invalid_id_witness :
  isValidObjectId "bad" = false
  /\ getVideoById (Some uA) "bad" env0 st0
     = (Err (ApiError InvalidArgument 400 "Invalid Video Id"), st0)
  /\ updateVideo (Some uA) "bad" (Some "x") None None env0 st0
     = (Err (ApiError InvalidArgument 400 "Invalid video Id"), st0)
  /\ deleteVideo (Some uA) "bad" env0 st0 = (Err (ApiError InvalidArgument 400 "Invalid videoId"), st0)
  /\ togglePublishStatus (Some uA) "bad" env0 st0
     = (Err (ApiError InvalidArgument 400 "Invalid videoId"), st0).
Proof.
  split; [reflexivity|].
  apply (handlers_reject_invalid_id env0 st0 (Some uA) "bad" (Some "x") None None).
  reflexivity.
Defined.

Lemma getVideoById_unknown_caller_counts_view_witness :
  isValidObjectId v1 = true /\ db_up env0 = true
  /\ Video_findById st0 (ObjectId v1) = Some vid1 /\ User_findById st0 None = None
  /\ let '(r, s') := getVideoById None v1 env0 st0 in
     r = Err TypeError
     /\ Video_findById s' (ObjectId v1) = Some (set_views (S (views vid1)) vid1)
     /\ users s' = users st0.
Proof.
  split; [reflexivity|]. split; [reflexivity|]. split; [reflexivity|]. split; [reflexivity|].
  apply getVideoById_unknown_caller_counts_view; reflexivity.
Defined.

Lemma updateVideo_no_fields_witness :
  isValidObjectId v1 = true /\ Video_findById st0 (ObjectId v1) = Some vid1
  /\ js_truthy (Some "") = false
  /\ updateVideo (Some (owner vid1)) v1 (Some "") None None env0 st0
     = (Err (ApiError InvalidArgument 400 "Atleast one field should be passed to update"), st0).
Proof.
  split; [reflexivity|]. split; [reflexivity|]. split; [reflexivity|].
  apply updateVideo_no_fields; reflexivity.
Defined.

Lemma updateVideo_upload_failed_witness :
  isValidObjectId v1 = true /\ Video_findById st0 (ObjectId v1) = Some vid1
  /\ cloudinary env_bad_upload "bad" = None
  /\ let '(r, s') := updateVideo (Some (owner vid1)) v1 (Some "New") None (Some "bad")
                       env_bad_upload st0 in
     r = Err (ApiError UpstreamFailure 401 "Error while uploading thumbnail")
     /\ videos s' = videos st0 /\ users s' = users st0 /\ assets s' = assets st0
     /\ log s' = (log st0 ++ [EUpload "bad"])%list.
Proof.
  split; [reflexivity|]. split; [reflexivity|]. split; [reflexivity|].
  apply updateVideo_upload_failed; [reflexivity|reflexivity|discriminate|reflexivity].
Defined.

Lemma updateVideo_new_thumbnail_witness :
  isValidObjectId v1 = true /\ Video_findById st0 (ObjectId v1) = Some vid1
  /\ cloudinary env0 "nt" = Some (mkUpload "http://c/nt" "nt" 42)
  /\ let v' := set_title_desc_thumb (Some "New") None (mkMedia (Some "http://c/nt") (Some "nt")) vid1 in
     let '(r, s') := updateVideo (Some (owner vid1)) v1 (Some "New") None (Some "nt") env0 st0 in
     r = Ok v'
     /\ Video_findById s' (ObjectId v1) = Some v'
     /\ assets s' = match public_id (thumbnail vid1) with
                    | Some q => List.filter (fun a => negb (String.eqb a q))
                                            (assets st0 ++ ["nt"])%list
                    | None => (assets st0 ++ ["nt"])%list
                    end.
Proof.
  split; [reflexivity|]. split; [reflexivity|]. split; [reflexivity|].
  apply (updateVideo_new_thumbnail env0 st0 v1 vid1 "nt" (mkUpload "http://c/nt" "nt" 42));
    [reflexivity|reflexivity|discriminate|reflexivity|reflexivity].
Defined.

Lemma deleteVideo_removes_assets_witness :
  isValidObjectId v1 = true /\ db_up env0 = true /\ Video_findById st0 (ObjectId v1) = Some vid1
  /\ let drop (o : option string) (l : list string) :=
       match o with
       | Some q => List.filter (fun a => negb (String.eqb a q)) l
       | None => l
       end in
     let '(r, s') := deleteVideo (Some (owner vid1)) v1 env0 st0 in
     r = Ok vid1
     /\ assets s' = drop (public_id (thumbnail vid1)) (drop (public_id (videoFile vid1)) (assets st0))
     /\ log s' = (log st0 ++ [EVideoDelete (ObjectId v1); EAssetDelete (public_id (videoFile vid1));
                              EAssetDelete (public_id (thumbnail vid1))])%list.
Proof.
  split; [reflexivity|]. split; [reflexivity|]. split; [reflexivity|].
  apply deleteVideo_removes_assets; reflexivity.
Defined.

Lemma togglePublishStatus_missing_witness :
  isValidObjectId v9 = true /\ Video_findById st0 (ObjectId v9) = None
  /\ togglePublishStatus (Some uA) v9 env0 st0
     = (Err (ApiError NotFound 401 "Video not found"), st0).
Proof.
  split; [reflexivity|]. split; [reflexivity|].
  apply togglePublishStatus_missing; reflexivity.
Defined.

Lemma publishAVideo_success_witness :
  trim "T" <> "" /\ Video_findById st0 (fresh_oid (next_id st0)) = None
  /\ let v := mkVideo (fresh_oid (next_id st0)) (Some "T") (Some "D") 42
                (mkMedia (Some "http://c/vp") (Some "vp"))
                (mkMedia (Some "http://c/tp") (Some "tp")) uA 0 true (now env0) in
     let '(r, s') := publishAVideo (Some uA) (Some "T") (Some "D")
                       (Some (mkFiles (Some ["vp"]) (Some ["tp"]))) env0 st0 in
     r = Ok v /\ videos s' = (videos st0 ++ [v])%list /\ users s' = users st0
     /\ assets s' = (assets st0 ++ ["vp"; "tp"])%list
     /\ next_id s' = S (next_id st0).
Proof.
  split; [discriminate|]. split; [vm_compute; reflexivity|].
  apply (publishAVideo_success env0 st0 uA "T" "D" "vp" "tp" [] []
           (mkUpload "http://c/vp" "vp" 42) (mkUpload "http://c/tp" "tp" 42));
    try reflexivity; try discriminate.
Defined.

Lemma publishAVideo_video_upload_failed_witness :
  cloudinary env_bad_upload "bad" = None
  /\ let '(r, s') := publishAVideo (Some uA) (Some "T") (Some "D")
                       (Some (mkFiles (Some ["bad"]) (Some ["tp"]))) env_bad_upload st0 in
     r = Err (ApiError UpstreamFailure 400 "Video file not found")
     /\ videos s' = videos st0 /\ users s' = users st0
     /\ assets s' = (assets st0 ++ match cloudinary env_bad_upload "tp" with
                                   | Some th => [up_public_id th]
                                   | None => []
                                   end)%list
     /\ log s' = (log st0 ++ [EUpload "bad"; EUpload "tp"])%list.
Proof.
  split; [reflexivity|].
  apply publishAVideo_video_upload_failed; try reflexivity; discriminate.
Defined.

Lemma publishAVideo_missing_video_file_witness :
  blank_field (Some "T") = false /\ blank_field (Some "D") = false
  /\ publishAVideo (Some uA) (Some "T") (Some "D") None env0 st0
     = (Err (ApiError InvalidArgument 400 "videoFileLocalPath is required"), st0)
  /\ (@None (list string) = None \/ @None (list string) = Some [] ->
      publishAVideo (Some uA) (Some "T") (Some "D") (Some (mkFiles None (Some ["tp"]))) env0 st0
      = (Err TypeError, st0)).
Proof.
  split; [reflexivity|]. split; [reflexivity|].
  apply publishAVideo_missing_video_file; reflexivity.
Defined.

Lemma publishAVideo_blank_rejected_witness :
  blank_field (Some "  ") = true
  /\ publishAVideo (Some uA) (Some "  ") (Some "D") (Some (mkFiles (Some ["vp"]) (Some ["tp"])))
       env0 st0
     = (Err (ApiError InvalidArgument 400 "All fields are required"), st0).
Proof.
  split; [reflexivity|].
  apply publishAVideo_blank_rejected. left. reflexivity.
Defined.

End Runs2.

Module UserRuns.
Import Sample MoreSamples UserController.

Lemma registerUser_blank_rejected_witness :
  In (Some " ") [Some " "; Some "e@x.io"; Some "pw"; Some "bob"] /\ trim " " = ""
  /\ registerUser (Some " ") (Some "pw") (Some "e@x.io") (Some "bob") None uenv0 ust0
     = (UErr (UApiError 400 "All fiels are required"), ust0).
Proof.
  split; [left; reflexivity|]. split; [reflexivity|].
  apply (UserProofs.registerUser_blank_rejected uenv0 ust0 (Some " ") (Some "pw")
           (Some "e@x.io") (Some "bob") None " "); [left; reflexivity|reflexivity].
Defined.

Lemma registerUser_conflict_witness :
  User_findOne uenv0 ust0 (Some "alice") (Some "new@x.io") = Some acc1
  /\ registerUser (Some "A") (Some "pw") (Some "new@x.io") (Some "alice")
       (Some (mkUFiles (Some ["av"]) None)) uenv0 ust0
     = (UErr (UApiError 409 "USer with emailor username already exists"), ust0).
Proof.
  split; [vm_compute; reflexivity|].
  apply (UserProofs.registerUser_conflict _ _ _ _ _ _ _ acc1);
    [repeat constructor|vm_compute; reflexivity].
Defined.

Lemma registerUser_missing_avatar_witness :
  User_findOne uenv0 ust0 (Some "bob") (Some "bob@x.io") = None
  /\ registerUser (Some "Bob") (Some "pw") (Some "bob@x.io") (Some "bob") None uenv0 ust0
     = (UErr (UApiError 400 "Avatar file is required ..."), ust0)
  /\ registerUser (Some "Bob") (Some "pw") (Some "bob@x.io") (Some "bob")
       (Some (mkUFiles (Some []) None)) uenv0 ust0
     = (UErr (UApiError 400 "Avatar file is required ..."), ust0)
  /\ registerUser (Some "Bob") (Some "pw") (Some "bob@x.io") (Some "bob")
       (Some (mkUFiles None None)) uenv0 ust0
     = (UErr UTypeError, ust0).
Proof.
  split; [vm_compute; reflexivity|].
  apply UserProofs.registerUser_missing_avatar; [repeat constructor|vm_compute; reflexivity].
Defined.

Lemma registerUser_avatar_upload_failed_witness :
  u_cloudinary uenv0 "bad" = None
  /\ let '(r, s') := registerUser (Some "Bob") (Some "pw") (Some "bob@x.io") (Some "bob")
                       (Some (mkUFiles (Some ["bad"]) (Some ["cov"]))) uenv0 ust0 in
     r = UErr (UApiError 400 "Avatar file is required!!!")
     /\ accounts s' = accounts ust0
     /\ u_assets s' = (u_assets ust0 ++ ["cov"])%list
     /\ u_log s' = (u_log ust0 ++ [UEUpload "bad"; UEUpload "cov"])%list.
Proof.
  split; [reflexivity|].
  apply (UserProofs.registerUser_avatar_upload_failed uenv0 ust0 (Some "Bob") (Some "pw")
           (Some "bob@x.io") (Some "bob") "bad" "cov" [] [] (mkUpload "http://c/cov" "cov" 0));
    [repeat constructor|vm_compute; reflexivity|discriminate|discriminate
    |reflexivity|reflexivity].
Defined.

Lemma registerUser_absent_username_witness :
  User_findOne uenv0 ust0 None (Some "bob@x.io") = None
  /\ let '(r, s') := registerUser (Some "Bob") (Some "pw") (Some "bob@x.io") None
                       (Some (mkUFiles (Some ["av"]) None)) uenv0 ust0 in
     r = UErr UTypeError
     /\ accounts s' = accounts ust0
     /\ u_assets s' = (u_assets ust0 ++ ["av"])%list
     /\ u_log s' = (u_log ust0 ++ [UEUpload "av"])%list.
Proof.
  split; [vm_compute; reflexivity|].
  apply (UserProofs.registerUser_absent_username uenv0 ust0 (Some "Bob") (Some "pw")
           (Some "bob@x.io") "av" [] (mkUpload "http://c/av" "av" 0));
    [repeat constructor|vm_compute; reflexivity|discriminate|reflexivity].
Defined.

Lemma registerUser_success_no_cover_witness :
  User_findOne uenv0 ust0 (Some "BoB") (Some "bob@x.io") = None
  /\ UserController.User_findById ust0 (a_id bob) = None
  /\ let doc := mkNewUser (Some "Bob") "http://c/av" "" (Some "bob@x.io") (Some "pw")
                          (toLowerCase "BoB") in
     let '(r, s') := registerUser (Some "Bob") (Some "pw") (Some "bob@x.io") (Some "BoB")
                       (Some (mkUFiles (Some ["av"]) None)) uenv0 ust0 in
     r = UOk (public_view bob)
     /\ accounts s' = (accounts ust0 ++ [bob])%list
     /\ u_assets s' = (u_assets ust0 ++ ["av"])%list
     /\ u_log s' = (u_log ust0 ++ [UEUpload "av"; UECreate doc])%list.
Proof.
  split; [vm_compute; reflexivity|]. split; [vm_compute; reflexivity|].
  apply (UserProofs.registerUser_success_no_cover uenv0 ust0 "Bob" "pw" "bob@x.io" "BoB" "av" []
           (mkUpload "http://c/av" "av" 0) bob);
    [repeat constructor|vm_compute; reflexivity|discriminate|reflexivity|reflexivity
    |vm_compute; reflexivity|vm_compute; reflexivity].
Defined.

Lemma loginUser_no_identifier_witness :
  js_truthy (Some "") = false
  /\ loginUser None (Some "") (Some "pw") uenv0 ust0
     = (UErr (UApiError 400 "username or email is required"), ust0).
Proof.
  split; [reflexivity|].
  apply UserProofs.loginUser_no_identifier; reflexivity.
Defined.

Lemma loginUser_unknown_user_witness :
  User_findOne uenv0 ust0 (Some "zed") None = None
  /\ loginUser None (Some "zed") (Some "pw") uenv0 ust0
     = (UErr (UApiError 404 "User does not exist"), ust0).
Proof.
  split; [vm_compute; reflexivity|].
  apply UserProofs.loginUser_unknown_user; [left; reflexivity|vm_compute; reflexivity].
Defined.

Lemma loginUser_wrong_password_witness :
  isPasswordCorrect uenv0 acc1 (Some "nope") = Some false
  /\ loginUser None (Some "alice") (Some "nope") uenv0 ust0
     = (UErr (UApiError 401 "Invalid user credentials"), ust0).
Proof.
  split; [vm_compute; reflexivity|].
  apply (UserProofs.loginUser_wrong_password _ _ _ _ _ acc1);
    [left; reflexivity|vm_compute; reflexivity|vm_compute; reflexivity].
Defined.

Lemma loginUser_success_witness :
  isPasswordCorrect uenv0 acc1 (Some "pw") = Some true
  /\ let '(r, s') := loginUser None (Some "alice") (Some "pw") uenv0 ust0 in
     r = UOk (Some (public_view acc1), generateAccessToken uenv0 acc1,
              generateRefreshToken uenv0 acc1)
     /\ UserController.User_findById s' (a_id acc1)
        = Some (set_refreshToken (Some (generateRefreshToken uenv0 acc1)) acc1).
Proof.
  split; [vm_compute; reflexivity|].
  apply (UserProofs.loginUser_success _ _ _ _ _ acc1 acc1);
    [left; reflexivity|vm_compute; reflexivity|vm_compute; reflexivity
    |vm_compute; reflexivity|reflexivity].
Defined.

Lemma loginUser_db_down_witness :
  u_db_up uenv_db_down = false
  /\ loginUser None (Some "alice") (Some "pw") uenv_db_down ust0
     = (UErr (UApiError 500 "something went wrong while creating refresh and access tokens"), ust0).
Proof.
  split; [reflexivity|].
  apply (UserProofs.loginUser_db_down _ _ _ _ _ acc1);
    [left; reflexivity|vm_compute; reflexivity|vm_compute; reflexivity|reflexivity].
Defined.

End UserRuns.
